(** * Model Compression Toolkit: quantization-parameter selection

    A shallow embedding of the similarity metrics
    ([common/similarity_analyzer.py]), the symmetric threshold selection
    ([quantization_params_generation/symmetric_selection.py]), the dispatch
    of parameter-search functions ([quantization_params_fn_selection.py])
    the per-node configuration pass
    ([quantization/set_node_quantization_config.py]), the lookup of a
    target platform model ([tpc_models/get_model.py],
    [core/tpc_models/get_target_platform_capabilities.py]) and the choice
    of a distance function per layer ([core/keras/keras_implementation.py]).

    Numbers.  The similarity metrics are stated twice.  What depends on
    the arithmetic of the arrays is stated over binary64 floats
    ([Float64]): every operation rounds as IEEE 754 prescribes, an element
    may be nan or an infinity, and what numpy takes from outside IEEE 754
    (the [pow] of the C library and the order in which a sum adds its
    terms) is a parameter.  What does not (the check of the shapes, the
    early return for two zero tensors, the division by a zero norm) is
    stated over the real numbers ([SimilarityAnalyzer]).  The threshold
    selection only compares, negates and selects values: it is stated over
    the rationals ([SymmetricSelection]) and, where nan, an infinity or the
    dtype of the array matter, over arrays that carry their dtype
    ([TypedSelection]). *)

From Stdlib Require Import Reals QArith Qabs Lra Lia ZArith Psatz.
From Stdlib Require Floats Uint63.
From stdpp Require Import base gmap strings list sorting.

(** ** Python results: a value or a raised exception *)

Module Py.

Inductive exn : Type :=
| AssertionError
| ValueError
| IndexError
| TypeError
| AttributeError
| KeyError
| ZeroDivisionError
| Exception (msg : string).

Inductive result (A : Type) : Type :=
| Return (a : A)
| Raise (e : exn).
Arguments Return {A} a.
Arguments Raise {A} e.

Definition bind {A B : Type} (m : result A) (k : A -> result B) : result B :=
  match m with
  | Return a => k a
  | Raise e => Raise e
  end.

Definition raises {A : Type} (m : result A) : Prop :=
  exists e, m = Raise e.

Definition returned {A : Type} (m : result A) : Prop :=
  match m with Return _ => True | Raise _ => False end.

End Py.

Import Py.

Declare Scope py_scope.
Delimit Scope py_scope with py.
Notation "x <- m ;; k" := (bind m (fun x => k))
  (at level 100, m at next level, right associativity) : py_scope.
Notation "m ;;; k" := (bind m (fun _ => k))
  (at level 100, right associativity) : py_scope.

(** ** numpy arrays: a shape and the flattened (row-major) elements *)

Record ndarray (A : Type) : Type := mk_ndarray {
  shape : list nat;
  data : list A
}.
Arguments mk_ndarray {A} shape data.
Arguments shape {A} _.
Arguments data {A} _.

(** A one-dimensional array. *)
Definition np_asarray {A : Type} (l : list A) : ndarray A :=
  mk_ndarray [length l] l.

(** ** common/similarity_analyzer.py *)

Module SimilarityAnalyzer.

Local Open Scope R_scope.
Local Open Scope py_scope.

#[global] Instance R_eq_dec : EqDecision R := Req_dec_T.

(** A numpy float of the metrics: a real number, or a non-finite value
    (nan or an infinity).  In these functions a non-finite value is either
    returned at once or only meets operations that keep it non-finite. *)
Inductive np_float : Type :=
| Finite (r : R)
| NonFinite.

Definition nf_bind (a : np_float) (k : R -> np_float) : np_float :=
  match a with
  | Finite r => k r
  | NonFinite => NonFinite
  end.

Definition nf_lift2 (f : R -> R -> R) (a b : np_float) : np_float :=
  nf_bind a (fun x => nf_bind b (fun y => Finite (f x y))).

(** [a / b] on floats: dividing by zero gives nan or an infinity. *)
Definition np_div (a b : R) : np_float :=
  if decide (b = 0) then NonFinite else Finite (a / b).

Definition nf_div (a b : np_float) : np_float :=
  nf_bind a (fun x => nf_bind b (fun y => np_div x y)).

(** [np.power(b, e)] for a base [b >= 0], the only bases [tensor_norm]
    reaches (it takes absolute values first). *)
Definition np_power (b e : R) : np_float :=
  if decide (b = 0) then
    (if decide (e = 0) then Finite 1
     else if Rlt_dec 0 e then Finite 0 else NonFinite)
  else if Rlt_dec 0 b then Finite (Rpower b e)
  else NonFinite.

Definition Rsum (l : list R) : R := foldr Rplus 0 l.

(** [.sum()] and [.mean()] of an array that may hold non-finite values. *)
Definition nf_sum (l : list np_float) : np_float :=
  foldr (nf_lift2 Rplus) (Finite 0) l.

Definition nf_mean (l : list np_float) : np_float :=
  match l with
  | [] => NonFinite
  | _ => nf_bind (nf_sum l) (fun s => Finite (s / INR (length l)))
  end.

(** [.mean()] of an array of reals; numpy yields nan for an empty array. *)
Definition np_mean (l : list R) : np_float :=
  match l with
  | [] => NonFinite
  | _ => Finite (Rsum l / INR (length l))
  end.

Definition np_all_zero (l : list R) : bool :=
  forallb (fun v => bool_decide (v = 0)) l.

(** The arguments are typed as arrays, so the two [isinstance] assertions
    hold; the third assertion compares the shapes. *)
Definition validate_before_compute_similarity
    (float_tensor fxp_tensor : ndarray R) : result unit :=
  if decide (shape float_tensor = shape fxp_tensor)
  then Return tt
  else Raise AssertionError.

Definition tensor_norm (x : ndarray R) (p : R) : result np_float :=
  if decide (p = 0) then Raise ZeroDivisionError
  else
    Return (nf_bind (nf_sum (map (fun v => np_power (Rabs v) p) (data x)))
                    (fun s => np_power s (1 / p))).

Definition compute_mse (float_tensor fxp_tensor : ndarray R)
    (norm : bool) (norm_eps : R) : result np_float :=
  validate_before_compute_similarity float_tensor fxp_tensor ;;;
  let error :=
    np_mean (map (fun d => d ^ 2)
                 (zip_with Rminus (data float_tensor) (data fxp_tensor))) in
  if norm then
    Return (nf_div error
              (nf_lift2 Rplus
                 (np_mean (map (fun v => v ^ 2) (data float_tensor)))
                 (Finite norm_eps)))
  else Return error.

Definition normalize (x : ndarray R) (n : np_float) : list np_float :=
  map (fun v => nf_bind n (fun d => np_div v d)) (data x).

Definition compute_nmse (float_tensor fxp_tensor : ndarray R)
    : result np_float :=
  validate_before_compute_similarity float_tensor fxp_tensor ;;;
  nf <- tensor_norm float_tensor 2 ;;
  nx <- tensor_norm fxp_tensor 2 ;;
  let normalized_float_tensor := normalize float_tensor nf in
  let normalized_fxp_tensor := normalize fxp_tensor nx in
  Return (nf_mean (map (fun d => nf_bind d (fun r => Finite (r ^ 2)))
                       (zip_with (nf_lift2 Rminus)
                          normalized_float_tensor normalized_fxp_tensor))).

Definition compute_nmae (float_tensor fxp_tensor : ndarray R)
    : result np_float :=
  validate_before_compute_similarity float_tensor fxp_tensor ;;;
  nf <- tensor_norm float_tensor 1 ;;
  nx <- tensor_norm fxp_tensor 1 ;;
  let normalized_float_tensor := normalize float_tensor nf in
  let normalized_fxp_tensor := normalize fxp_tensor nx in
  Return (nf_mean (map (fun d => nf_bind d (fun r => Finite (Rabs r)))
                       (zip_with (nf_lift2 Rminus)
                          normalized_float_tensor normalized_fxp_tensor))).

Definition compute_mae (float_tensor fxp_tensor : ndarray R)
    (norm : bool) (norm_eps : R) : result np_float :=
  validate_before_compute_similarity float_tensor fxp_tensor ;;;
  let error :=
    np_mean (map Rabs
                 (zip_with Rminus (data float_tensor) (data fxp_tensor))) in
  if norm then
    Return (nf_div error
              (nf_lift2 Rplus
                 (np_mean (map Rabs (data float_tensor)))
                 (Finite norm_eps)))
  else Return error.

Definition compute_cs (float_tensor fxp_tensor : ndarray R) (eps : R)
    : result np_float :=
  validate_before_compute_similarity float_tensor fxp_tensor ;;;
  if np_all_zero (data fxp_tensor) && np_all_zero (data float_tensor)
  then Return (Finite 1)
  else
    let float_flat := data float_tensor in
    let fxp_flat := data fxp_tensor in
    float_norm <- tensor_norm float_tensor 2 ;;
    fxp_norm <- tensor_norm fxp_tensor 2 ;;
    let cs :=
      nf_div (Finite (Rsum (zip_with Rmult float_flat fxp_flat)))
             (nf_lift2 Rplus (nf_lift2 Rmult float_norm fxp_norm)
                             (Finite eps)) in
    Return (nf_div (nf_lift2 Rminus (Finite 1) cs) (Finite 2)).

(** [p] is a natural number here; the base is an absolute value. *)
Definition compute_lp_norm (float_tensor fxp_tensor : ndarray R)
    (p : nat) (norm : bool) (norm_eps : R) : result np_float :=
  validate_before_compute_similarity float_tensor fxp_tensor ;;;
  let error :=
    np_mean (map (fun d => Rabs d ^ p)
                 (zip_with Rminus (data float_tensor) (data fxp_tensor))) in
  if norm then
    Return (nf_div error
              (nf_lift2 Rplus
                 (np_mean (map (fun v => Rabs v ^ p) (data float_tensor)))
                 (Finite norm_eps)))
  else Return error.

(** The default of [eps] and [norm_eps]: 1e-8. *)
Definition default_eps : R := / 100000000.

Definition sq (v : R) : R := v ^ 2.

(** [c * x] for a scalar [c]. *)
Definition np_scale (c : R) (x : ndarray R) : ndarray R :=
  mk_ndarray (shape x) (map (Rmult c) (data x)).

End SimilarityAnalyzer.

(** ** common/similarity_analyzer.py on float64 arrays

    The same functions on arrays of binary64 floats, numpy's default
    floating type: every operation rounds, and an element may be nan or an
    infinity.  The one value nan stands for every nan. *)

Module Float64.

Import Floats.
Local Open Scope float_scope.
Local Open Scope py_scope.

(** The order in which a reduction adds the elements of an array: a leaf
    is the element at an index, and a partial sum may start from a zero of
    either sign. *)
Inductive summation : Type :=
| leaf (i : nat)
| start (negative : bool)
| node (t1 t2 : summation).

Fixpoint terms (t : summation) : list nat :=
  match t with
  | leaf i => [i]
  | start _ => []
  | node t1 t2 => terms t1 ++ terms t2
  end.

Fixpoint total (l : list float) (t : summation) : float :=
  match t with
  | leaf i => nth i l 0
  | start negative => if negative then -0 else 0
  | node t1 t2 => total l t1 + total l t2
  end.

(** What numpy takes from outside IEEE 754: the [pow] of the C library
    behind [np.power], and the order of the additions of [np.sum]
    (pairwise, in blocks). *)
Record Kernel : Type := {
  npy_pow : float -> float -> float;
  add_reduce : list float -> float
}.

(** [np.sum] adds every element once, in some order. *)
Definition sums_in_some_order (K : Kernel) : Prop :=
  forall l, exists t,
    terms t ≡ₚ seq 0 (length l) /\ add_reduce K l = total l t.

(** The number of elements, as the float64 the mean divides by. *)
Definition count (n : nat) : float :=
  of_uint63 (Uint63.of_Z (Z.of_nat n)).

Definition np_power (K : Kernel) (l : list float) (p : float) : list float :=
  map (fun v => npy_pow K v p) l.

Definition np_sum (K : Kernel) (l : list float) : float := add_reduce K l.

Definition np_mean (K : Kernel) (l : list float) : float :=
  add_reduce K l / count (length l).

Definition np_all_zero (l : list float) : bool :=
  forallb (fun v => v =? 0) l.

(** An integer exponent, converted to float64. *)
Definition float_of_Z (z : Z) : float :=
  match z with
  | Z0 => 0
  | Zpos _ => of_uint63 (Uint63.of_Z z)
  | Zneg q => - of_uint63 (Uint63.of_Z (Zpos q))
  end.

Definition validate_before_compute_similarity
    (float_tensor fxp_tensor : ndarray float) : result unit :=
  if decide (shape float_tensor = shape fxp_tensor)
  then Return tt
  else Raise AssertionError.

(** [1.0/p] is a division of Python floats: it raises for [p = 0]. *)
Definition tensor_norm (K : Kernel) (x : ndarray float) (p : float)
    : result float :=
  let s := np_sum K (np_power K (map abs (data x)) p) in
  if p =? 0 then Raise ZeroDivisionError
  else Return (npy_pow K s (1 / p)).

Definition compute_mse (K : Kernel) (float_tensor fxp_tensor : ndarray float)
    (norm : bool) (norm_eps : float) : result float :=
  validate_before_compute_similarity float_tensor fxp_tensor ;;;
  let error :=
    np_mean K (np_power K (zip_with sub (data float_tensor)
                                        (data fxp_tensor)) 2) in
  Return (if norm
          then error / (np_mean K (np_power K (data float_tensor) 2)
                        + norm_eps)
          else error).

Definition compute_nmse (K : Kernel) (float_tensor fxp_tensor : ndarray float)
    : result float :=
  validate_before_compute_similarity float_tensor fxp_tensor ;;;
  float_norm <- tensor_norm K float_tensor 2 ;;
  let normalized_float_tensor :=
    map (fun v => v / float_norm) (data float_tensor) in
  fxp_norm <- tensor_norm K fxp_tensor 2 ;;
  let normalized_fxp_tensor :=
    map (fun v => v / fxp_norm) (data fxp_tensor) in
  Return (np_mean K (np_power K (zip_with sub normalized_float_tensor
                                              normalized_fxp_tensor) 2)).

Definition compute_nmae (K : Kernel) (float_tensor fxp_tensor : ndarray float)
    : result float :=
  validate_before_compute_similarity float_tensor fxp_tensor ;;;
  float_norm <- tensor_norm K float_tensor 1 ;;
  let normalized_float_tensor :=
    map (fun v => v / float_norm) (data float_tensor) in
  fxp_norm <- tensor_norm K fxp_tensor 1 ;;
  let normalized_fxp_tensor :=
    map (fun v => v / fxp_norm) (data fxp_tensor) in
  Return (np_mean K (map abs (zip_with sub normalized_float_tensor
                                           normalized_fxp_tensor))).

Definition compute_mae (K : Kernel) (float_tensor fxp_tensor : ndarray float)
    (norm : bool) (norm_eps : float) : result float :=
  validate_before_compute_similarity float_tensor fxp_tensor ;;;
  let error :=
    np_mean K (map abs (zip_with sub (data float_tensor)
                                     (data fxp_tensor))) in
  Return (if norm
          then error / (np_mean K (map abs (data float_tensor)) + norm_eps)
          else error).

Definition compute_cs (K : Kernel) (float_tensor fxp_tensor : ndarray float)
    (eps : float) : result float :=
  validate_before_compute_similarity float_tensor fxp_tensor ;;;
  if np_all_zero (data fxp_tensor) && np_all_zero (data float_tensor)
  then Return 1
  else
    let float_flat := data float_tensor in
    let fxp_flat := data fxp_tensor in
    float_norm <- tensor_norm K float_tensor 2 ;;
    fxp_norm <- tensor_norm K fxp_tensor 2 ;;
    let cs := np_sum K (zip_with mul float_flat fxp_flat)
              / ((float_norm * fxp_norm) + eps) in
    Return ((1 - cs) / 2).

Definition compute_lp_norm (K : Kernel)
    (float_tensor fxp_tensor : ndarray float) (p : Z) (norm : bool)
    (norm_eps : float) : result float :=
  validate_before_compute_similarity float_tensor fxp_tensor ;;;
  let error :=
    np_mean K (np_power K (map abs (zip_with sub (data float_tensor)
                                                 (data fxp_tensor)))
                 (float_of_Z p)) in
  Return (if norm
          then error / (np_mean K (np_power K (map abs (data float_tensor))
                                     (float_of_Z p))
                        + norm_eps)
          else error).

(** A finite number: neither an infinity nor nan. *)
Definition finite (v : float) : Prop := is_finite v = true.

(** A kernel that adds from left to right, starting from 0.0, and whose
    [pow] is the correctly rounded one on the exponents 2, 1 and 1/2 and
    is not specified elsewhere (nan). *)
Definition left_to_right : Kernel := {|
  npy_pow := fun x y =>
    if y =? 2 then x * x
    else if y =? 1 then x
    else if y =? 0.5 then sqrt x
    else nan;
  add_reduce := fun l => fold_left add l 0
|}.

(** Adding a zero of either sign, on either side, leaves [a] as it is:
    [a] is neither a zero nor nan. *)
Definition absorbs_zeros (a : float) : Prop :=
  a + 0 = a /\ 0 + a = a /\ a + -0 = a /\ -0 + a = a.

(** The default of [eps] and [norm_eps]: the float64 nearest to 1e-8. *)
Definition default_eps : float := 0x1.5798ee2308c3ap-27.

End Float64.

(** ** The configuration tags (quantization_config.py) *)

Module QuantizationConfigTags.

(** Modelled from the spec: the quantization schemes and the error methods
    (section 3, Data model); the file that declares the two enumerations is
    not part of the sources at hand.  The members are the ones the
    dispatchers compare with. *)
Inductive QuantizationMethod : Type :=
| POWER_OF_TWO | KMEANS | LUT_QUANTIZER | SYMMETRIC | UNIFORM.

Inductive QuantizationErrorMethod : Type :=
| NOCLIPPING | MSE | MAE | KL | LP.

#[global] Instance QuantizationMethod_eq_dec : EqDecision QuantizationMethod.
Proof. solve_decision. Defined.

#[global] Instance QuantizationErrorMethod_eq_dec :
  EqDecision QuantizationErrorMethod.
Proof. solve_decision. Defined.

(** A Python argument compared with the members of an enumeration [E]:
    one of the members, or any other object (Python does not check the
    annotation), kept by its printed form. *)
Inductive tag (E : Type) : Type :=
| Member (e : E)
| Other (repr : string).
Arguments Member {E} e.
Arguments Other {E} repr.

Definition method_name (m : QuantizationMethod) : string :=
  match m with
  | POWER_OF_TWO => "POWER_OF_TWO"
  | KMEANS => "KMEANS"
  | LUT_QUANTIZER => "LUT_QUANTIZER"
  | SYMMETRIC => "SYMMETRIC"
  | UNIFORM => "UNIFORM"
  end.

Definition error_method_name (e : QuantizationErrorMethod) : string :=
  match e with
  | NOCLIPPING => "NOCLIPPING"
  | MSE => "MSE"
  | MAE => "MAE"
  | KL => "KL"
  | LP => "LP"
  end.

(** The text an f-string prints for the argument. *)
Definition str_method (m : tag QuantizationMethod) : string :=
  match m with
  | Member m => "QuantizationMethod." +:+ method_name m
  | Other r => r
  end.

Definition str_error_method (e : tag QuantizationErrorMethod) : string :=
  match e with
  | Member e => "QuantizationErrorMethod." +:+ error_method_name e
  | Other r => r
  end.

End QuantizationConfigTags.

Import QuantizationConfigTags.

(** ** quantization_params_generation/symmetric_selection.py *)

Module SymmetricSelection.

Local Open Scope Q_scope.
Local Open Scope py_scope.

(** A threshold: a scalar, or one value per channel. *)
Inductive qparam : Type :=
| Scalar (q : Q)
| PerChannel (a : ndarray Q).

Definition Qltb (a b : Q) : bool := negb (Qle_bool b a).

(** [np.any(x < 0)], [np.abs(x)] and [np.max(x)]. *)
Definition np_any_neg (l : list Q) : bool :=
  existsb (fun v => Qltb v 0) l.

Definition np_abs (x : ndarray Q) : ndarray Q :=
  mk_ndarray (shape x) (map Qabs (data x)).

Definition np_max (l : list Q) : result Q :=
  match l with
  | [] => Raise ValueError
  | v :: vs => Return (fold_left (fun m w => if Qltb m w then w else m) vs v)
  end.

(** Python's [max(a, b)]: [b] when [b > a], else [a]. *)
Definition pymax (a b : Q) : Q := if Qltb a b then b else a.

(** [x[mask]] for a one-dimensional boolean mask. *)
Definition np_mask (l : list Q) (mask : list bool) : result (list Q) :=
  if decide (length l = length mask)
  then Return (map fst (filter (fun vb => snd vb = true) (zip l mask)))
  else Raise IndexError.

Definition qneg (t : qparam) : qparam :=
  match t with
  | Scalar q => Scalar (- q)
  | PerChannel a => PerChannel (mk_ndarray (shape a) (map Qopp (data a)))
  end.

(** Modelled from the spec: the key of the returned dictionary
    (constants.py is not part of the sources at hand). *)
Definition THRESHOLD : string := "threshold".

(** The error functions handed to the searches, as the closures the two
    [get_threshold_selection_*_error_function] tables hold. *)
Inductive tensor_error_function : Type :=
| kl_error (n_bits : Z)
| mse_error (norm : bool)
| mae_error (norm : bool)
| lp_error (p : Z) (norm : bool).

Inductive histogram_error_function : Type :=
| kl_error_histogram
| mse_error_histogram
| mae_error_histogram
| lp_error_histogram (p : Z).

Record OptimizeResult : Type := { opt_x : qparam }.

Definition bounds : Type := list (Q * Q).

(** The collaborators of the selection that are not part of the sources at
    hand (quantizers_helpers.py, qparams_search.py, kl_selection.py and
    scipy's optimizer): the selection is stated for any of them. *)
Record SearchBackend : Type := {
  get_tensor_max_per_channel : ndarray Q -> Z -> result (ndarray Q);
  get_threshold_bounds : Q -> qparam -> bounds;
  quantize_tensor : ndarray Q -> qparam -> Z -> bool -> ndarray Q;
  quantize_bins : list Q -> qparam -> Z -> bool -> list Q;
  kl_error_function : ndarray Q -> qparam -> qparam -> Z -> Q;
  optimize_minimize :
    (qparam -> Q) -> qparam -> bounds -> string -> result OptimizeResult;
  qparams_tensor_minimization :
    ndarray Q -> qparam -> tensor_error_function ->
    (qparam -> ndarray Q) -> bounds -> result OptimizeResult;
  symmetric_qparams_selection_per_channel_search :
    ndarray Q -> qparam -> Z ->
    (ndarray Q -> qparam -> bounds -> result OptimizeResult) ->
    Q -> result qparam;
  kl_symmetric_qparams_histogram_minimization :
    list Q -> Q -> list Z -> Z -> bool ->
    histogram_error_function -> bounds -> result OptimizeResult;
  qparams_histogram_minimization :
    list Q -> Q -> list Z -> histogram_error_function ->
    (qparam -> list Q) -> bounds -> result OptimizeResult
}.

(** Modelled from the spec: [get_tensor_max] (quantizers_helpers.py is not
    part of the sources at hand).  Section 4.2: without clipping the
    parameter is the raw maximum; the per-channel reduction is left to the
    backend. *)
Definition get_tensor_max (B : SearchBackend) (tensor_data : ndarray Q)
    (per_channel : bool) (channel_axis : Z) : result qparam :=
  if per_channel then
    m <- get_tensor_max_per_channel B tensor_data channel_axis ;;
    Return (PerChannel m)
  else
    m <- np_max (data tensor_data) ;;
    Return (Scalar m).

(** [res.x[0]]. *)
Definition first_component (t : qparam) : result qparam :=
  match t with
  | Scalar _ => Raise IndexError
  | PerChannel a =>
      match data a with
      | [] => Raise IndexError
      | v :: _ => Return (Scalar v)
      end
  end.

(** Per channel, the values below [min_threshold] are replaced in the
    array.  Otherwise Python's [max] compares [min_threshold] with
    [tensor_max], which is a scalar in the callers of this file; an array
    with one element compares like its element, and one with several has no
    truth value. *)
Definition get_init_threshold (min_threshold : Q) (tensor_max : qparam)
    (per_channel : bool) : result qparam :=
  if per_channel then
    match tensor_max with
    | PerChannel a =>
        Return (PerChannel
                  (mk_ndarray (shape a)
                     (map (fun v => if Qltb v min_threshold
                                    then min_threshold else v) (data a))))
    | Scalar _ => Raise TypeError
    end
  else
    match tensor_max with
    | Scalar t => Return (Scalar (pymax min_threshold t))
    | PerChannel a =>
        match data a with
        | [] => Return (Scalar min_threshold)
        | [v] => Return (if Qltb min_threshold v
                         then PerChannel a else Scalar min_threshold)
        | _ => Raise ValueError
        end
    end.

Definition get_threshold_selection_tensor_error_function
    (quant_error_method : tag QuantizationErrorMethod) (p : Z) (norm : bool)
    : result tensor_error_function :=
  match quant_error_method with
  | Member MSE => Return (mse_error norm)
  | Member MAE => Return (mae_error norm)
  | Member LP => Return (lp_error p norm)
  | _ => Raise KeyError
  end.

Definition get_threshold_selection_histogram_error_function
    (quant_error_method : tag QuantizationErrorMethod) (p : Z)
    : result histogram_error_function :=
  match quant_error_method with
  | Member MSE => Return mse_error_histogram
  | Member MAE => Return mae_error_histogram
  | Member LP => Return (lp_error_histogram p)
  | _ => Raise KeyError
  end.

(** The search function the per-channel wrapper calls on each channel:
    the quantizer it builds takes the flag [signed] of the enclosing
    call. *)
Definition channel_search_function (B : SearchBackend)
    (error_function : tensor_error_function) (n_bits : Z) (signed : bool)
    : ndarray Q -> qparam -> bounds -> result OptimizeResult :=
  fun _x _x0 bounds =>
    qparams_tensor_minimization B _x _x0 error_function
      (fun threshold => quantize_tensor B _x threshold n_bits signed)
      bounds.

Definition symmetric_selection_tensor (B : SearchBackend)
    (tensor_data : ndarray Q) (p n_bits : Z) (per_channel : bool)
    (channel_axis n_iter : Z) (min_threshold : Q)
    (quant_error_method : tag QuantizationErrorMethod)
    : result (gmap string qparam) :=
  let signed := np_any_neg (data tensor_data) in
  let unsigned_tensor_data := np_abs tensor_data in
  tensor_max <-
    get_tensor_max B unsigned_tensor_data per_channel channel_axis ;;
  res <-
    match quant_error_method with
    | Member NOCLIPPING =>
        get_init_threshold min_threshold tensor_max per_channel
    | Member KL =>
        if per_channel then
          let error_function := kl_error n_bits in
          symmetric_qparams_selection_per_channel_search B
            tensor_data tensor_max channel_axis
            (channel_search_function B error_function n_bits signed)
            min_threshold
        else
          init_threshold <-
            get_init_threshold min_threshold tensor_max false ;;
          res <- optimize_minimize B
                   (fun threshold =>
                      kl_error_function B tensor_data
                        (qneg threshold) threshold n_bits)
                   init_threshold
                   (get_threshold_bounds B min_threshold init_threshold)
                   "Nelder-Mead" ;;
          Return (opt_x res)
    | _ =>
        error_function <-
          get_threshold_selection_tensor_error_function
            quant_error_method p false ;;
        if per_channel then
          symmetric_qparams_selection_per_channel_search B
            tensor_data tensor_max channel_axis
            (channel_search_function B error_function n_bits signed)
            min_threshold
        else
          init_threshold <-
            get_init_threshold min_threshold tensor_max false ;;
          res <- qparams_tensor_minimization B tensor_data init_threshold
                   error_function
                   (fun threshold =>
                      quantize_tensor B tensor_data threshold n_bits signed)
                   (get_threshold_bounds B min_threshold init_threshold) ;;
          Return (opt_x res)
    end ;;
  Return {[ THRESHOLD := res ]}.

Definition symmetric_selection_histogram (B : SearchBackend)
    (bins : list Q) (counts : list Z) (p n_bits : Z)
    (min_value max_value : Q) (constrained : bool) (n_iter : Z)
    (min_threshold : Q) (quant_error_method : tag QuantizationErrorMethod)
    : result (gmap string qparam) :=
  selected <-
    np_mask (tail (map Qabs bins)) (map (fun c => (0 <? c)%Z) counts) ;;
  tensor_max <- np_max selected ;;
  let signed := np_any_neg bins in
  res <-
    match quant_error_method with
    | Member NOCLIPPING =>
        get_init_threshold min_threshold (Scalar tensor_max) false
    | Member KL =>
        init_threshold <-
          get_init_threshold min_threshold (Scalar tensor_max) false ;;
        res <- kl_symmetric_qparams_histogram_minimization B
                 bins tensor_max counts n_bits signed kl_error_histogram
                 (get_threshold_bounds B min_threshold init_threshold) ;;
        first_component (opt_x res)
    | _ =>
        init_threshold <-
          get_init_threshold min_threshold (Scalar tensor_max) false ;;
        error_function <-
          get_threshold_selection_histogram_error_function
            quant_error_method p ;;
        res <- qparams_histogram_minimization B
                 bins tensor_max counts error_function
                 (fun threshold => quantize_bins B bins threshold n_bits signed)
                 (get_threshold_bounds B min_threshold init_threshold) ;;
        first_component (opt_x res)
    end ;;
  Return {[ THRESHOLD := res ]}.

(** The argument [quant_error_method] is received and not used: the call
    below always passes NOCLIPPING. *)
Definition symmetric_no_clipping_selection_min_max (B : SearchBackend)
    (bins : list Q) (counts : list Z) (p n_bits : Z)
    (min_value max_value : Q) (constrained : bool) (n_iter : Z)
    (min_threshold : Q) (quant_error_method : tag QuantizationErrorMethod)
    : result (gmap string qparam) :=
  symmetric_selection_histogram B
    [min_value; max_value] [1%Z] p n_bits min_value max_value
    constrained n_iter min_threshold (Member NOCLIPPING).

(** A backend that does no search: it hands the initial guess back. *)
Definition idle_backend : SearchBackend := {|
  get_tensor_max_per_channel := fun t _ => Return t;
  get_threshold_bounds := fun _ _ => [];
  quantize_tensor := fun t _ _ _ => t;
  quantize_bins := fun b _ _ _ => b;
  kl_error_function := fun _ _ _ _ => 0;
  optimize_minimize := fun _ x0 _ _ => Return {| opt_x := x0 |};
  qparams_tensor_minimization := fun _ x0 _ _ _ => Return {| opt_x := x0 |};
  symmetric_qparams_selection_per_channel_search :=
    fun _ tmax _ _ _ => Return tmax;
  kl_symmetric_qparams_histogram_minimization :=
    fun _ tmax _ _ _ _ _ => Return {| opt_x := PerChannel (np_asarray [tmax]) |};
  qparams_histogram_minimization :=
    fun _ tmax _ _ _ _ => Return {| opt_x := PerChannel (np_asarray [tmax]) |}
|}.

(** [m] is the greatest element of [l]. *)
Definition is_max_of (m : Q) (l : list Q) : Prop :=
  m ∈ l /\ forall v, v ∈ l -> v <= m.

(** The backend [B] with the signedness of every quantization fixed to
    [flag], whatever flag the caller passes. *)
Definition with_signed (B : SearchBackend) (flag : bool) : SearchBackend := {|
  get_tensor_max_per_channel := get_tensor_max_per_channel B;
  get_threshold_bounds := get_threshold_bounds B;
  quantize_tensor := fun x t n _ => quantize_tensor B x t n flag;
  quantize_bins := fun b t n _ => quantize_bins B b t n flag;
  kl_error_function := kl_error_function B;
  optimize_minimize := optimize_minimize B;
  qparams_tensor_minimization := qparams_tensor_minimization B;
  symmetric_qparams_selection_per_channel_search :=
    symmetric_qparams_selection_per_channel_search B;
  kl_symmetric_qparams_histogram_minimization :=
    fun bins tmax counts n _ =>
      kl_symmetric_qparams_histogram_minimization B bins tmax counts n flag;
  qparams_histogram_minimization := qparams_histogram_minimization B
|}.

(** A backend that shows which flag reaches the quantizer: every element
    is a channel of its own, the quantizer answers 1 on a signed grid and 0
    on an unsigned one, and a search hands back what the quantizer
    answered for its initial guess. *)
Definition probe_search (sf : ndarray Q -> qparam -> bounds ->
                              result OptimizeResult)
    (vs : list Q) : result (list Q) :=
  foldr (fun v acc =>
           rest <- acc ;;
           r <- sf (np_asarray [v]) (Scalar (Qabs v)) [] ;;
           match opt_x r with
           | Scalar q => Return (q :: rest)
           | PerChannel _ => Raise TypeError
           end)
        (Return []) vs.

Definition probe_backend : SearchBackend := {|
  get_tensor_max_per_channel := fun t _ => Return t;
  get_threshold_bounds := fun _ _ => [];
  quantize_tensor :=
    fun x _ _ signed =>
      mk_ndarray (shape x) (map (fun _ => if signed then 1 else 0) (data x));
  quantize_bins := fun b _ _ _ => b;
  kl_error_function := fun _ _ _ _ => 0;
  optimize_minimize := fun _ x0 _ _ => Return {| opt_x := x0 |};
  qparams_tensor_minimization :=
    fun _ x0 _ quant _ =>
      Return {| opt_x := Scalar (foldr Qplus 0 (data (quant x0))) |};
  symmetric_qparams_selection_per_channel_search :=
    fun t _ _ sf _ =>
      r <- probe_search sf (data t) ;;
      Return (PerChannel (np_asarray r));
  kl_symmetric_qparams_histogram_minimization :=
    fun _ tmax _ _ _ _ _ => Return {| opt_x := PerChannel (np_asarray [tmax]) |};
  qparams_histogram_minimization :=
    fun _ tmax _ _ _ _ => Return {| opt_x := PerChannel (np_asarray [tmax]) |}
|}.



End SymmetricSelection.

(** ** symmetric_selection.py on arrays that carry their dtype

    The same functions on arrays whose elements may be nan or an infinity
    and whose dtype decides what [np.abs] and an assignment do. *)

Module TypedSelection.

Local Open Scope Q_scope.
Local Open Scope py_scope.

(** An element of an array or a Python float: a number, by its exact
    value, an infinity, or nan. *)
Inductive scalar : Type :=
| Fin (q : Q)
| PosInf
| NegInf
| NaN.

(** The dtype of an array.  A floating-point type is given by the
    rounding a float64 value gets when it is stored in the array (none for
    float64 itself); an integer type by its width. *)
Inductive dtype : Type :=
| floating (store : Q -> Q)
| signed_int (bits : positive)
| unsigned_int (bits : positive).


Record tensor : Type := mk_tensor {
  dtype_of : dtype;
  array : ndarray scalar
}.

Definition elements (t : tensor) : list scalar := data (array t).

(** [a < b] and [a > b]: false when either side is nan. *)
Definition lt (a b : scalar) : bool :=
  match a, b with
  | NaN, _ | _, NaN => false
  | _, NegInf | PosInf, _ => false
  | NegInf, _ | _, PosInf => true
  | Fin x, Fin y => SymmetricSelection.Qltb x y
  end.

Definition is_nan (a : scalar) : bool :=
  match a with NaN => true | _ => false end.

(** The most negative value of a signed integer type. *)
Definition int_min (bits : positive) : Q :=
  inject_Z (- 2 ^ (Z.pos bits - 1)).

(** [np.abs] on one element: the most negative value of a signed integer
    type has no positive counterpart and is left as it is. *)
Definition abs_scalar (d : dtype) (v : scalar) : scalar :=
  match v with
  | Fin q =>
      match d with
      | signed_int bits =>
          if Qeq_bool q (int_min bits) then Fin q else Fin (Qabs q)
      | _ => Fin (Qabs q)
      end
  | PosInf | NegInf => PosInf
  | NaN => NaN
  end.

(** The value an element holds after a Python float is assigned to it:
    rounded to the floating-point type, or truncated toward zero and
    reduced to the width of the integer type.  (C leaves the conversion of
    an infinity or of nan to an integer undefined; it is kept here.) *)
Definition wrap_signed (bits : positive) (z : Z) : Z :=
  ((z + 2 ^ (Z.pos bits - 1)) mod 2 ^ Z.pos bits - 2 ^ (Z.pos bits - 1))%Z.

Definition truncate (q : Q) : Z := Z.quot (Qnum q) (Z.pos (Qden q)).

Definition cast (d : dtype) (v : scalar) : scalar :=
  match v with
  | Fin q =>
      match d with
      | floating store => Fin (store q)
      | signed_int bits => Fin (inject_Z (wrap_signed bits (truncate q)))
      | unsigned_int bits =>
          Fin (inject_Z (truncate q mod 2 ^ Z.pos bits))
      end
  | _ => v
  end.

(** [np.any(x < 0)], [np.abs(x)] and [np.max(x)]; the maximum of an array
    that holds a nan is nan. *)
Definition np_any_neg (l : list scalar) : bool :=
  existsb (fun v => lt v (Fin 0)) l.

Definition np_abs (x : tensor) : tensor :=
  mk_tensor (dtype_of x)
    (mk_ndarray (shape (array x))
       (map (abs_scalar (dtype_of x)) (elements x))).

Definition maximum (m w : scalar) : scalar :=
  if is_nan m then m else if is_nan w then w else if lt m w then w else m.

Definition np_max (l : list scalar) : result scalar :=
  match l with
  | [] => Raise ValueError
  | v :: vs => Return (fold_left maximum vs v)
  end.

(** Python's [max(a, b)]: [b] when [b > a], else [a]. *)
Definition pymax (a b : scalar) : scalar := if lt a b then b else a.

(** [x[mask]] for a one-dimensional boolean mask. *)
Definition np_mask (l : list scalar) (mask : list bool)
    : result (list scalar) :=
  if decide (length l = length mask)
  then Return (map fst (filter (fun vb => snd vb = true) (zip l mask)))
  else Raise IndexError.

(** A threshold: a scalar, or one value per channel. *)
Inductive qparam : Type :=
| Scalar (v : scalar)
| PerChannel (a : tensor).

Definition neg_scalar (v : scalar) : scalar :=
  match v with
  | Fin q => Fin (- q)
  | PosInf => NegInf
  | NegInf => PosInf
  | NaN => NaN
  end.

(** An argument that should be a member of an enumeration: a member, or
    any other Python value, of which only its being hashable matters. *)
Inductive arg (E : Type) : Type :=
| Member (e : E)
| Other (repr : string) (hashable : bool).
Arguments Member {E} e.
Arguments Other {E} repr hashable.

Definition THRESHOLD : string := SymmetricSelection.THRESHOLD.

Record OptimizeResult : Type := { opt_x : qparam }.

Definition bounds : Type := list (scalar * scalar).

(** The collaborators that are not part of the sources at hand, as in
    [SymmetricSelection]. *)
Record SearchBackend : Type := {
  get_tensor_max_per_channel : tensor -> Z -> result tensor;
  get_threshold_bounds : scalar -> qparam -> bounds;
  quantize_tensor : tensor -> qparam -> Z -> bool -> tensor;
  kl_error_function : tensor -> qparam -> qparam -> Z -> scalar;
  optimize_minimize :
    (qparam -> scalar) -> qparam -> bounds -> string -> result OptimizeResult;
  qparams_tensor_minimization :
    tensor -> qparam -> SymmetricSelection.tensor_error_function ->
    (qparam -> tensor) -> bounds -> result OptimizeResult;
  symmetric_qparams_selection_per_channel_search :
    tensor -> qparam -> Z ->
    (tensor -> qparam -> bounds -> result OptimizeResult) ->
    scalar -> result qparam;
  kl_symmetric_qparams_histogram_minimization :
    tensor -> scalar -> list Z -> Z -> bool ->
    SymmetricSelection.histogram_error_function -> bounds ->
    result OptimizeResult;
  qparams_histogram_minimization :
    tensor -> scalar -> list Z ->
    SymmetricSelection.histogram_error_function ->
    (qparam -> tensor) -> bounds -> result OptimizeResult
}.

(** Modelled from the spec: [get_tensor_max] (quantizers_helpers.py is not
    part of the sources at hand), as in [SymmetricSelection]. *)
Definition get_tensor_max (B : SearchBackend) (tensor_data : tensor)
    (per_channel : bool) (channel_axis : Z) : result qparam :=
  if per_channel then
    m <- get_tensor_max_per_channel B tensor_data channel_axis ;;
    Return (PerChannel m)
  else
    m <- np_max (elements tensor_data) ;;
    Return (Scalar m).

(** Per channel, [init_t[tensor_max < min_threshold] = min_threshold]
    assigns in place: the array keeps its dtype, and [min_threshold] is
    cast to it.  The array is the one [get_tensor_max] built, which nothing
    else refers to. *)
Definition get_init_threshold (min_threshold : scalar) (tensor_max : qparam)
    (per_channel : bool) : result qparam :=
  if per_channel then
    match tensor_max with
    | PerChannel a =>
        Return (PerChannel
                  (mk_tensor (dtype_of a)
                     (mk_ndarray (shape (array a))
                        (map (fun v => if lt v min_threshold
                                       then cast (dtype_of a) min_threshold
                                       else v) (elements a)))))
    | Scalar _ => Raise TypeError
    end
  else
    match tensor_max with
    | Scalar t => Return (Scalar (pymax min_threshold t))
    | PerChannel a =>
        match elements a with
        | [] => Return (Scalar min_threshold)
        | [v] => Return (if lt min_threshold v
                         then PerChannel a else Scalar min_threshold)
        | _ => Raise ValueError
        end
    end.

(** The lookup in the table of error functions: a key that is not in the
    table is a [KeyError], a value that cannot be hashed a [TypeError]. *)
Definition get_threshold_selection_tensor_error_function
    (quant_error_method : arg QuantizationErrorMethod) (p : Z) (norm : bool)
    : result SymmetricSelection.tensor_error_function :=
  match quant_error_method with
  | Member MSE => Return (SymmetricSelection.mse_error norm)
  | Member MAE => Return (SymmetricSelection.mae_error norm)
  | Member LP => Return (SymmetricSelection.lp_error p norm)
  | Member _ => Raise KeyError
  | Other _ true => Raise KeyError
  | Other _ false => Raise TypeError
  end.

Definition channel_search_function (B : SearchBackend)
    (error_function : SymmetricSelection.tensor_error_function)
    (n_bits : Z) (signed : bool)
    : tensor -> qparam -> bounds -> result OptimizeResult :=
  fun _x _x0 bounds =>
    qparams_tensor_minimization B _x _x0 error_function
      (fun threshold => quantize_tensor B _x threshold n_bits signed)
      bounds.

Definition qneg (t : qparam) : qparam :=
  match t with
  | Scalar v => Scalar (neg_scalar v)
  | PerChannel a =>
      PerChannel (mk_tensor (dtype_of a)
                    (mk_ndarray (shape (array a))
                       (map neg_scalar (elements a))))
  end.

Definition symmetric_selection_tensor (B : SearchBackend)
    (tensor_data : tensor) (p n_bits : Z) (per_channel : bool)
    (channel_axis n_iter : Z) (min_threshold : scalar)
    (quant_error_method : arg QuantizationErrorMethod)
    : result (gmap string qparam) :=
  let signed := np_any_neg (elements tensor_data) in
  let unsigned_tensor_data := np_abs tensor_data in
  tensor_max <-
    get_tensor_max B unsigned_tensor_data per_channel channel_axis ;;
  res <-
    match quant_error_method with
    | Member NOCLIPPING =>
        get_init_threshold min_threshold tensor_max per_channel
    | Member KL =>
        if per_channel then
          let error_function := SymmetricSelection.kl_error n_bits in
          symmetric_qparams_selection_per_channel_search B
            tensor_data tensor_max channel_axis
            (channel_search_function B error_function n_bits signed)
            min_threshold
        else
          init_threshold <-
            get_init_threshold min_threshold tensor_max false ;;
          res <- optimize_minimize B
                   (fun threshold =>
                      kl_error_function B tensor_data
                        (qneg threshold) threshold n_bits)
                   init_threshold
                   (get_threshold_bounds B min_threshold init_threshold)
                   "Nelder-Mead" ;;
          Return (opt_x res)
    | _ =>
        error_function <-
          get_threshold_selection_tensor_error_function
            quant_error_method p false ;;
        if per_channel then
          symmetric_qparams_selection_per_channel_search B
            tensor_data tensor_max channel_axis
            (channel_search_function B error_function n_bits signed)
            min_threshold
        else
          init_threshold <-
            get_init_threshold min_threshold tensor_max false ;;
          res <- qparams_tensor_minimization B tensor_data init_threshold
                   error_function
                   (fun threshold =>
                      quantize_tensor B tensor_data threshold n_bits signed)
                   (get_threshold_bounds B min_threshold init_threshold) ;;
          Return (opt_x res)
    end ;;
  Return {[ THRESHOLD := res ]}.

Definition get_threshold_selection_histogram_error_function
    (quant_error_method : arg QuantizationErrorMethod) (p : Z)
    : result SymmetricSelection.histogram_error_function :=
  match quant_error_method with
  | Member MSE => Return SymmetricSelection.mse_error_histogram
  | Member MAE => Return SymmetricSelection.mae_error_histogram
  | Member LP => Return (SymmetricSelection.lp_error_histogram p)
  | Member _ => Raise KeyError
  | Other _ true => Raise KeyError
  | Other _ false => Raise TypeError
  end.

(** [res.x[0]]. *)
Definition first_component (t : qparam) : result qparam :=
  match t with
  | Scalar _ => Raise IndexError
  | PerChannel a =>
      match elements a with
      | [] => Raise IndexError
      | v :: _ => Return (Scalar v)
      end
  end.

Definition symmetric_selection_histogram (B : SearchBackend)
    (bins : tensor) (counts : list Z) (p n_bits : Z)
    (min_value max_value : scalar) (constrained : bool) (n_iter : Z)
    (min_threshold : scalar)
    (quant_error_method : arg QuantizationErrorMethod)
    : result (gmap string qparam) :=
  selected <-
    np_mask (tail (elements (np_abs bins)))
            (map (fun c => (0 <? c)%Z) counts) ;;
  tensor_max <- np_max selected ;;
  let signed := np_any_neg (elements bins) in
  res <-
    match quant_error_method with
    | Member NOCLIPPING =>
        get_init_threshold min_threshold (Scalar tensor_max) false
    | Member KL =>
        init_threshold <-
          get_init_threshold min_threshold (Scalar tensor_max) false ;;
        res <- kl_symmetric_qparams_histogram_minimization B
                 bins tensor_max counts n_bits signed
                 SymmetricSelection.kl_error_histogram
                 (get_threshold_bounds B min_threshold init_threshold) ;;
        first_component (opt_x res)
    | _ =>
        init_threshold <-
          get_init_threshold min_threshold (Scalar tensor_max) false ;;
        error_function <-
          get_threshold_selection_histogram_error_function
            quant_error_method p ;;
        res <- qparams_histogram_minimization B
                 bins tensor_max counts error_function
                 (fun threshold =>
                    quantize_tensor B bins threshold n_bits signed)
                 (get_threshold_bounds B min_threshold init_threshold) ;;
        first_component (opt_x res)
    end ;;
  Return {[ THRESHOLD := res ]}.

(** A backend that does no search: it hands the initial guess back. *)
Definition idle_backend : SearchBackend := {|
  get_tensor_max_per_channel := fun t _ => Return t;
  get_threshold_bounds := fun _ _ => [];
  quantize_tensor := fun t _ _ _ => t;
  kl_error_function := fun _ _ _ _ => Fin 0;
  optimize_minimize := fun _ x0 _ _ => Return {| opt_x := x0 |};
  qparams_tensor_minimization := fun _ x0 _ _ _ => Return {| opt_x := x0 |};
  symmetric_qparams_selection_per_channel_search :=
    fun _ tmax _ _ _ => Return tmax;
  kl_symmetric_qparams_histogram_minimization :=
    fun b tmax _ _ _ _ _ =>
      Return {| opt_x :=
        PerChannel (mk_tensor (dtype_of b) (np_asarray [tmax])) |};
  qparams_histogram_minimization :=
    fun b tmax _ _ _ _ =>
      Return {| opt_x :=
        PerChannel (mk_tensor (dtype_of b) (np_asarray [tmax])) |}
|}.

(** The order of the numbers and the infinities. *)
Definition le (a b : scalar) : Prop :=
  match a, b with
  | NaN, _ | _, NaN => False
  | NegInf, _ | _, PosInf => True
  | _, NegInf | PosInf, _ => False
  | Fin x, Fin y => x <= y
  end.


(** [m] is the greatest element of [l]. *)
Definition is_max_of (m : scalar) (l : list scalar) : Prop :=
  m ∈ l /\ forall v, v ∈ l -> le v m.


(** A strictly negative value: [v < 0] holds. *)
Definition negative (v : scalar) : Prop :=
  match v with
  | Fin q => q < 0
  | NegInf => True
  | PosInf | NaN => False
  end.

(** The backend [B] with the signedness of every quantization fixed to
    [flag], whatever flag the caller passes. *)
Definition with_signed (B : SearchBackend) (flag : bool) : SearchBackend := {|
  get_tensor_max_per_channel := get_tensor_max_per_channel B;
  get_threshold_bounds := get_threshold_bounds B;
  quantize_tensor := fun x t n _ => quantize_tensor B x t n flag;
  kl_error_function := kl_error_function B;
  optimize_minimize := optimize_minimize B;
  qparams_tensor_minimization := qparams_tensor_minimization B;
  symmetric_qparams_selection_per_channel_search :=
    symmetric_qparams_selection_per_channel_search B;
  kl_symmetric_qparams_histogram_minimization :=
    fun bins tmax counts n _ =>
      kl_symmetric_qparams_histogram_minimization B bins tmax counts n flag;
  qparams_histogram_minimization := qparams_histogram_minimization B
|}.


(** One search per element, each element a channel of its own. *)
Definition probe_search
    (sf : tensor -> qparam -> bounds -> result OptimizeResult)
    (t : tensor) : result (list scalar) :=
  foldr (fun v acc =>
           rest <- acc ;;
           r <- sf (mk_tensor (dtype_of t) (np_asarray [v]))
                   (Scalar (abs_scalar (dtype_of t) v)) [] ;;
           match opt_x r with
           | Scalar q => Return (q :: rest)
           | PerChannel _ => Raise TypeError
           end)
        (Return []) (elements t).




End TypedSelection.

(** ** quantization/quantization_params_fn_selection.py *)

Module ParamsFnSelection.

(** The search functions the dispatchers choose among, by name: a
    dispatcher hands a function back and calls none. *)
Module Fn.
Inductive t : Type :=
| no_clipping_selection_min_max
| mse_selection_histogram
| mae_selection_histogram
| lp_selection_histogram
| kl_selection_histogram
| no_clipping_selection_tensor
| mse_selection_tensor
| mae_selection_tensor
| kl_selection_tensor
| lp_selection_tensor
| symmetric_selection_tensor
| symmetric_selection_histogram
| uniform_selection_tensor
| uniform_selection_histogram
| kmeans_tensor
| lut_kmeans_tensor.
End Fn.

(** What a dispatcher returns: a function, or Python's [None]. *)
Inductive pyvalue : Type :=
| Callable (f : Fn.t)
| PyNone.

Definition no_params_function
    (m : tag QuantizationMethod) (e : tag QuantizationErrorMethod) : exn :=
  Exception
    ("No params function for the configuration of quantization method "
       +:+ str_method m +:+ " and quantization error method "
       +:+ str_error_method e).

Definition get_activation_quantization_params_fn
    (activation_quantization_method : tag QuantizationMethod)
    (activation_error_method : tag QuantizationErrorMethod)
    : result pyvalue :=
  match activation_quantization_method with
  | Member POWER_OF_TWO =>
      Return
        match activation_error_method with
        | Member NOCLIPPING => Callable Fn.no_clipping_selection_min_max
        | Member MSE => Callable Fn.mse_selection_histogram
        | Member MAE => Callable Fn.mae_selection_histogram
        | Member LP => Callable Fn.lp_selection_histogram
        | Member KL => Callable Fn.kl_selection_histogram
        | Other _ => PyNone
        end
  | Member SYMMETRIC => Return (Callable Fn.symmetric_selection_histogram)
  | Member UNIFORM => Return (Callable Fn.uniform_selection_histogram)
  | _ =>
      Raise (no_params_function activation_quantization_method
                                activation_error_method)
  end.

Definition get_weights_quantization_params_fn
    (weights_quantization_method : tag QuantizationMethod)
    (weights_error_method : tag QuantizationErrorMethod)
    : result pyvalue :=
  match weights_quantization_method with
  | Member POWER_OF_TWO =>
      Return
        match weights_error_method with
        | Member NOCLIPPING => Callable Fn.no_clipping_selection_tensor
        | Member MSE => Callable Fn.mse_selection_tensor
        | Member MAE => Callable Fn.mae_selection_tensor
        | Member KL => Callable Fn.kl_selection_tensor
        | Member LP => Callable Fn.lp_selection_tensor
        | Other _ => PyNone
        end
  | Member SYMMETRIC => Return (Callable Fn.symmetric_selection_tensor)
  | Member UNIFORM => Return (Callable Fn.uniform_selection_tensor)
  | Member KMEANS => Return (Callable Fn.kmeans_tensor)
  | Member LUT_QUANTIZER => Return (Callable Fn.lut_kmeans_tensor)
  | Other _ =>
      Raise (no_params_function weights_quantization_method
                                weights_error_method)
  end.

(** The methods each dispatcher has a branch for. *)
Definition activation_method_handled (m : tag QuantizationMethod) : bool :=
  match m with
  | Member POWER_OF_TWO | Member SYMMETRIC | Member UNIFORM => true
  | _ => false
  end.

Definition weights_method_handled (m : tag QuantizationMethod) : bool :=
  match m with
  | Member _ => true
  | Other _ => false
  end.

Definition is_member {E : Type} (x : tag E) : bool :=
  match x with
  | Member _ => true
  | Other _ => false
  end.

(** The claim's reading of a recognized configuration: the method is one
    the dispatcher handles and the error method is one of the declared
    tags. *)
Definition recognized (handled : tag QuantizationMethod -> bool)
    (m : tag QuantizationMethod) (e : tag QuantizationErrorMethod) : bool :=
  handled m && is_member e.

(** Fail fast: an unrecognized configuration raises at dispatch, and no
    call returns a value that is not a function. *)
Definition fails_fast (handled : tag QuantizationMethod -> bool)
    (dispatch : tag QuantizationMethod -> tag QuantizationErrorMethod ->
                result pyvalue) : Prop :=
  forall m e,
    (recognized handled m e = false -> raises (dispatch m e)) /\
    dispatch m e <> Return PyNone.

End ParamsFnSelection.

(** ** quantization/set_node_quantization_config.py *)

Module SetNodeQuantizationConfig.

Import ParamsFnSelection.
Local Open Scope py_scope.

(** [weights_n_bits]: one bit-width, or the declared list of a
    mixed-precision configuration. *)
Inductive n_bits_value : Type :=
| NBits (n : Z)
| NBitsList (l : list Z).

(** Modelled from the spec: the fields of [QuantizationConfig] this pass
    reads (quantization_config.py and
    mixed_precision_quantization_config.py are not part of the sources at
    hand).  [is_mixed_precision] is the outcome of
    [isinstance(qc, MixedPrecisionQuantizationConfig)]. *)
Record QuantizationConfig : Type := {
  is_mixed_precision : bool;
  activation_quantization_method : tag QuantizationMethod;
  activation_threshold_method : tag QuantizationErrorMethod;
  weights_quantization_method : tag QuantizationMethod;
  weights_threshold_method : tag QuantizationErrorMethod;
  weights_n_bits : n_bits_value;
  enable_activation_quantization : bool;
  enable_weights_quantization : bool
}.

Definition set_weights_n_bits (qc : QuantizationConfig) (v : n_bits_value)
    : QuantizationConfig :=
  {| is_mixed_precision := is_mixed_precision qc;
     activation_quantization_method := activation_quantization_method qc;
     activation_threshold_method := activation_threshold_method qc;
     weights_quantization_method := weights_quantization_method qc;
     weights_threshold_method := weights_threshold_method qc;
     weights_n_bits := v;
     enable_activation_quantization := enable_activation_quantization qc;
     enable_weights_quantization := enable_weights_quantization qc |}.

(** A quantizer of the framework, by name. *)
Definition quantizer : Type := string.

(** Modelled from the spec: the node configurations
    (node_quantization_config.py is not part of the sources at hand); a
    candidate holds the configuration it was made from, hence its
    bit-width, the two functions, and the enabled flag (section 3). *)
Record NodeActivationQuantizationConfig : Type := {
  activation_qc : QuantizationConfig;
  activation_quantization_fn : quantizer;
  activation_quantization_params_fn : pyvalue;
  cfg_enable_activation_quantization : bool
}.

Record NodeWeightsQuantizationConfig : Type := {
  weights_qc : QuantizationConfig;
  weights_quantization_fn : quantizer;
  weights_quantization_params_fn : pyvalue;
  weights_channels_axis : option Z;
  cfg_enable_weights_quantization : bool
}.

Definition cfg_weights_n_bits (c : NodeWeightsQuantizationConfig)
    : n_bits_value :=
  weights_n_bits (weights_qc c).

Definition set_enable_activation (c : NodeActivationQuantizationConfig)
    (b : bool) : NodeActivationQuantizationConfig :=
  {| activation_qc := activation_qc c;
     activation_quantization_fn := activation_quantization_fn c;
     activation_quantization_params_fn :=
       activation_quantization_params_fn c;
     cfg_enable_activation_quantization := b |}.

Definition set_enable_weights (c : NodeWeightsQuantizationConfig)
    (b : bool) : NodeWeightsQuantizationConfig :=
  {| weights_qc := weights_qc c;
     weights_quantization_fn := weights_quantization_fn c;
     weights_quantization_params_fn := weights_quantization_params_fn c;
     weights_channels_axis := weights_channels_axis c;
     cfg_enable_weights_quantization := b |}.

(** Modelled from the spec: a node of the graph (base_node.py is not part
    of the sources at hand): its layer type and the two configuration
    fields this pass assigns. *)
Record BaseNode : Type := {
  node_name : string;
  node_type : string;
  activation_quantization_cfg : option NodeActivationQuantizationConfig;
  candidates_weights_quantization_cfg :
    option (list NodeWeightsQuantizationConfig)
}.

#[global] Instance BaseNode_inhabited : Inhabited BaseNode :=
  populate {| node_name := ""; node_type := "";
              activation_quantization_cfg := None;
              candidates_weights_quantization_cfg := None |}.

(** Modelled from the spec: the framework information (framework_info.py
    is not part of the sources at hand): the two quantizer tables, the
    kernel channel table and the two capability queries (section 6). *)
Record FrameworkInfo : Type := {
  activation_quantizer_mapping : tag QuantizationMethod -> option quantizer;
  weights_quantizer_mapping : tag QuantizationMethod -> option quantizer;
  kernel_channels_mapping : string -> option (list (option Z));
  in_activation_ops : BaseNode -> bool;
  in_kernel_ops : BaseNode -> bool
}.

(** Modelled from the spec: [Logger.critical] (logger.py is not part of
    the sources at hand) reports a configuration error, which fails at
    once (section 7). *)
Definition Logger_critical {A : Type} (msg : string) : result A :=
  Raise (Exception msg).

(** Objects live in a store, at locations. *)
Definition loc : Type := positive.

(** Modelled from the spec: the graph (base_graph.py is not part of the
    sources at hand), as far as this pass uses it: the references to its
    nodes. *)
Record Graph : Type := { nodes : list loc }.

(** The store: the nodes, and the configuration object handed to the
    pass, which is one shared object. *)

Record store : Type := {
  heap : gmap loc BaseNode;
  quant_config : QuantizationConfig
}.

(** Computations that read and write the store and may raise. *)
Definition M (A : Type) : Type := store -> result A * store.

Definition ret {A : Type} (a : A) : M A := fun s => (Return a, s).

Definition mbind {A B : Type} (m : M A) (k : A -> M B) : M B :=
  fun s =>
    match m s with
    | (Return a, s') => k a s'
    | (Raise e, s') => (Raise e, s')
    end.

Definition lift {A : Type} (r : result A) : M A := fun s => (r, s).

Definition get_config : M QuantizationConfig :=
  fun s => (Return (quant_config s), s).

Definition put_config (qc : QuantizationConfig) : M unit :=
  fun s => (Return tt, {| heap := heap s; quant_config := qc |}).

Definition read_node (l : loc) : M BaseNode :=
  fun s => (Return (heap s !!! l), s).

Definition write_node (l : loc) (f : BaseNode -> BaseNode) : M unit :=
  fun s => (Return tt,
            {| heap := alter f l (heap s); quant_config := quant_config s |}).

Declare Scope store_scope.
Delimit Scope store_scope with store.
Notation "x <~ m ;; k" := (mbind m (fun x => k))
  (at level 100, m at next level, right associativity) : store_scope.
Notation "m ;;, k" := (mbind m (fun _ => k))
  (at level 100, right associativity) : store_scope.
Local Open Scope store_scope.

(** [for x in xs: body(x)], collecting the results. *)
Fixpoint for_each {A B : Type} (xs : list A) (body : A -> M B)
    : M (list B) :=
  match xs with
  | [] => ret []
  | x :: xs' =>
      b <~ body x ;;
      bs <~ for_each xs' body ;;
      ret (b :: bs)
  end.

Definition create_node_activation_qc (qc : QuantizationConfig)
    (fw_info : FrameworkInfo) : result NodeActivationQuantizationConfig :=
  activation_quantization_fn <-
    match activation_quantizer_mapping fw_info
            (activation_quantization_method qc) with
    | Some f => Return f
    | None => Logger_critical "Unknown quantization method for activations"
    end ;;
  activation_quantization_params_fn <-
    get_activation_quantization_params_fn
      (activation_quantization_method qc)
      (activation_threshold_method qc) ;;
  Return {| activation_qc := qc;
            activation_quantization_fn := activation_quantization_fn;
            activation_quantization_params_fn :=
              activation_quantization_params_fn;
            cfg_enable_activation_quantization :=
              enable_activation_quantization qc |}.

Definition create_node_weights_qc (qc : QuantizationConfig)
    (fw_info : FrameworkInfo) (weight_channel_axis : option Z)
    : result NodeWeightsQuantizationConfig :=
  weights_quantization_fn <-
    match weights_quantizer_mapping fw_info
            (weights_quantization_method qc) with
    | Some f => Return f
    | None => Logger_critical "Unknown quantization method for weights"
    end ;;
  weights_quantization_params_fn <-
    get_weights_quantization_params_fn
      (weights_quantization_method qc)
      (weights_threshold_method qc) ;;
  Return {| weights_qc := qc;
            weights_quantization_fn := weights_quantization_fn;
            weights_quantization_params_fn :=
              weights_quantization_params_fn;
            weights_channels_axis := weight_channel_axis;
            cfg_enable_weights_quantization :=
              enable_weights_quantization qc |}.

(** The order of [list.sort(reverse=True)]. *)
Definition descending (a b : Z) : Prop := (b <= a)%Z.

#[global] Instance descending_dec a b : Decision (descending a b).
Proof. unfold descending. apply _. Defined.

(** [qc.weights_n_bits.sort(reverse=True)] sorts the list of the shared
    configuration object in place; each candidate is made from a copy of
    that object that holds one bit-width. *)
Definition _create_node_candidates_weights_qc (fw_info : FrameworkInfo)
    (weight_channel_axis : option Z)
    : M (list NodeWeightsQuantizationConfig) :=
  qc <~ get_config ;;
  if is_mixed_precision qc then
    match weights_n_bits qc with
    | NBitsList declared =>
        let sorted := merge_sort descending declared in
        put_config (set_weights_n_bits qc (NBitsList sorted)) ;;,
        for_each sorted
          (fun nbits =>
             let single_nbits_qc :=
               set_weights_n_bits
                 (set_weights_n_bits qc (NBitsList sorted)) (NBits nbits) in
             lift (create_node_weights_qc single_nbits_qc fw_info
                                          weight_channel_axis))
    | NBits _ => lift (Raise AttributeError)
    end
  else
    c <~ lift (create_node_weights_qc qc fw_info weight_channel_axis) ;;
    ret [c].

(** [fw_info.kernel_channels_mapping.get(node.type)[0]]. *)
Definition kernel_channel_axis (fw_info : FrameworkInfo) (type : string)
    : result (option Z) :=
  match kernel_channels_mapping fw_info type with
  | None => Raise TypeError
  | Some [] => Raise IndexError
  | Some (axis :: _) => Return axis
  end.

Definition set_quantization_configs_to_node (node : loc)
    (fw_info : FrameworkInfo) : M unit :=
  quant_config <~ get_config ;;
  cfg <~ lift (create_node_activation_qc quant_config fw_info) ;;
  write_node node
    (fun n => {| node_name := node_name n; node_type := node_type n;
                 activation_quantization_cfg := Some cfg;
                 candidates_weights_quantization_cfg :=
                   candidates_weights_quantization_cfg n |}) ;;,
  n <~ read_node node ;;
  let enable_activation_quantization :=
    enable_activation_quantization quant_config
    && (in_activation_ops fw_info n || in_kernel_ops fw_info n) in
  write_node node
    (fun n => {| node_name := node_name n; node_type := node_type n;
                 activation_quantization_cfg :=
                   (fun c => set_enable_activation c
                               enable_activation_quantization)
                     <$> activation_quantization_cfg n;
                 candidates_weights_quantization_cfg :=
                   candidates_weights_quantization_cfg n |}) ;;,
  n <~ read_node node ;;
  weight_channel_axis <~ lift (kernel_channel_axis fw_info (node_type n)) ;;
  candidates <~
    _create_node_candidates_weights_qc fw_info weight_channel_axis ;;
  write_node node
    (fun n => {| node_name := node_name n; node_type := node_type n;
                 activation_quantization_cfg :=
                   activation_quantization_cfg n;
                 candidates_weights_quantization_cfg := Some candidates |}) ;;,
  n <~ read_node node ;;
  let enable_weights_quantization :=
    enable_weights_quantization quant_config && in_kernel_ops fw_info n in
  write_node node
    (fun n => {| node_name := node_name n; node_type := node_type n;
                 activation_quantization_cfg :=
                   activation_quantization_cfg n;
                 candidates_weights_quantization_cfg :=
                   map (fun qc => set_enable_weights qc
                                    enable_weights_quantization)
                     <$> candidates_weights_quantization_cfg n |}).

(** [copy.deepcopy] of the nodes: every node is copied once to a fresh
    location ([memo] maps the originals already copied to their copies). *)
Fixpoint deepcopy_nodes (ls : list loc) (memo : gmap loc loc)
    (h : gmap loc BaseNode) : list loc * gmap loc BaseNode :=
  match ls with
  | [] => ([], h)
  | l :: ls' =>
      match memo !! l with
      | Some l' =>
          let '(r, h') := deepcopy_nodes ls' memo h in (l' :: r, h')
      | None =>
          let l' := fresh (dom h) in
          let '(r, h') :=
            deepcopy_nodes ls' (<[l := l']> memo) (<[l' := h !!! l]> h) in
          (l' :: r, h')
      end
  end.

Definition deepcopy (graph : Graph) : M Graph :=
  fun s =>
    let '(r, h') := deepcopy_nodes (nodes graph) ∅ (heap s) in
    (Return {| nodes := r |},
     {| heap := h'; quant_config := quant_config s |}).

(** The configuration object is the one of the store. *)
Definition set_quantization_configuration_to_graph (graph : Graph)
    (fw_info : FrameworkInfo) : M Graph :=
  graph_with_qcs <~ deepcopy graph ;;
  for_each (nodes graph_with_qcs)
    (fun n => set_quantization_configs_to_node n fw_info) ;;,
  ret graph_with_qcs.

(** The bit-widths of the candidates a computation returned. *)
Definition candidate_bit_widths
    (r : result (list NodeWeightsQuantizationConfig))
    : result (list n_bits_value) :=
  (c <- r ;; Return (map cfg_weights_n_bits c))%py.

Definition strictly_descending (a b : Z) : Prop := (b < a)%Z.

(** A node that holds both configurations. *)
Definition configured (n : BaseNode) : Prop :=
  is_Some (activation_quantization_cfg n) /\
  is_Some (candidates_weights_quantization_cfg n).

Definition configured_at (h : gmap loc BaseNode) (l : loc) : Prop :=
  exists n, h !! l = Some n /\ configured n.

(** [h'] comes from [h] by updates of nodes of [L] that keep their name
    and type: the nodes outside [L] are the same, and no node appears or
    disappears. *)
Definition keeps_identity (g : BaseNode -> BaseNode) : Prop :=
  forall n, node_name (g n) = node_name n /\ node_type (g n) = node_type n.

Definition evolves (L : loc -> Prop) (h h' : gmap loc BaseNode) : Prop :=
  forall l,
    (~ L l -> h' !! l = h !! l) /\
    (exists g, keeps_identity g /\ h' !! l = g <$> h !! l).

(** A computation that only updates nodes of [L], whether it returns or
    raises. *)
Definition writes_within {A : Type} (L : loc -> Prop) (m : M A) : Prop :=
  forall s, evolves L (heap s) (heap (m s).2).

(** A framework that knows the power-of-two and the symmetric
    quantizers, and a configuration and a node to run the pass on. *)
Definition sample_fw_info : FrameworkInfo := {|
  activation_quantizer_mapping :=
    fun m => match m with
             | Member POWER_OF_TWO => Some "power_of_two_quantization"
             | Member SYMMETRIC => Some "symmetric_quantization"
             | _ => None
             end;
  weights_quantizer_mapping :=
    fun m => match m with
             | Member POWER_OF_TWO => Some "power_of_two_quantization"
             | Member SYMMETRIC => Some "symmetric_quantization"
             | _ => None
             end;
  kernel_channels_mapping :=
    fun t => if decide (t = "Conv2D") then Some [Some 3%Z; Some 2%Z]
             else Some [None; None];
  in_activation_ops := fun n => bool_decide (node_type n = "ReLU");
  in_kernel_ops := fun n => bool_decide (node_type n = "Conv2D")
|}.

Definition sample_config (mixed : bool) (bits : n_bits_value)
    : QuantizationConfig := {|
  is_mixed_precision := mixed;
  activation_quantization_method := Member POWER_OF_TWO;
  activation_threshold_method := Member MSE;
  weights_quantization_method := Member SYMMETRIC;
  weights_threshold_method := Member MSE;
  weights_n_bits := bits;
  enable_activation_quantization := true;
  enable_weights_quantization := true
|}.

Definition sample_node (name type : string) : BaseNode := {|
  node_name := name; node_type := type;
  activation_quantization_cfg := None;
  candidates_weights_quantization_cfg := None
|}.

(** A store with a convolution and an activation, and the configuration
    of the mixed-precision test of the repository: the bit-widths
    2, 8 and 4. *)
Definition sample_store (mixed : bool) (bits : n_bits_value) : store := {|
  heap := <[1%positive := sample_node "conv" "Conv2D"]>
            (<[2%positive := sample_node "relu" "ReLU"]> ∅);
  quant_config := sample_config mixed bits
|}.

Definition sample_graph : Graph := {| nodes := [1%positive; 2%positive] |}.

(** A node after the assignment of its activation configuration, and
    after the assignment of its candidates. *)
Definition with_activation_cfg (n : BaseNode)
    (c : NodeActivationQuantizationConfig) : BaseNode :=
  {| node_name := node_name n; node_type := node_type n;
     activation_quantization_cfg := Some c;
     candidates_weights_quantization_cfg :=
       candidates_weights_quantization_cfg n |}.

Definition with_candidates (n : BaseNode)
    (cs : list NodeWeightsQuantizationConfig) : BaseNode :=
  {| node_name := node_name n; node_type := node_type n;
     activation_quantization_cfg := activation_quantization_cfg n;
     candidates_weights_quantization_cfg := Some cs |}.

(** A framework whose two membership tests look at the type of the node
    only. *)
Definition decides_by_type (fw_info : FrameworkInfo) : Prop :=
  forall n n', node_type n = node_type n' ->
    in_activation_ops fw_info n = in_activation_ops fw_info n' /\
    in_kernel_ops fw_info n = in_kernel_ops fw_info n'.

(** What the pass may do to the shared configuration: nothing, or sort
    the declared list of bit-widths of a mixed-precision configuration. *)
Definition config_sorted_from (qc qc' : QuantizationConfig) : Prop :=
  qc' = qc \/
  exists declared,
    is_mixed_precision qc = true /\
    weights_n_bits qc = NBitsList declared /\
    qc' = set_weights_n_bits qc (NBitsList (merge_sort descending declared)).

Definition sorts_config_only {A : Type} (m : M A) : Prop :=
  forall s, config_sorted_from (quant_config s) (quant_config (m s).2).

(** The node at [l] carries candidates with the bit-widths [bits], in
    this order. *)
Definition holds_candidates (bits : list Z) (h : gmap loc BaseNode) (l : loc)
    : Prop :=
  exists n candidates,
    h !! l = Some n /\
    candidates_weights_quantization_cfg n = Some candidates /\
    map cfg_weights_n_bits candidates = map NBits bits.

End SetNodeQuantizationConfig.

(** ** tpc_models/get_model.py and
       core/tpc_models/get_target_platform_capabilities.py *)

Module TargetPlatformLookup.

Local Open Scope py_scope.

(** A value bound by [dict.get]: the dictionary found, or Python's [None]. *)
Definition py_dict (V : Type) : Type := option (gmap string V).

(** [key in d]: a membership test on [None] is a [TypeError]. *)
Definition py_in {V : Type} (key : string) (d : py_dict V) : result bool :=
  match d with
  | Some m => Return (bool_decide (is_Some (m !! key)))
  | None => Raise TypeError
  end.

(** [d.get(key)]: [None] has no attribute [get]; a missing key gives
    [None]. *)
Definition py_get {V : Type} (d : py_dict V) (key : string)
    : result (option V) :=
  match d with
  | Some m => Return (m !! key)
  | None => Raise AttributeError
  end.

Definition py_assert (b : bool) : result unit :=
  if b then Return tt else Raise AssertionError.

(** [fw_hw_models_dict = {TENSORFLOW: tf_models_dict,
                          PYTORCH: torch_models_dict}].
    The two keys come from [common/constants.py]; the two tables are empty
    unless the framework's packages are found. *)
Definition fw_hw_models_dict {V : Type} (TENSORFLOW PYTORCH : string)
    (tf_models_dict torch_models_dict : gmap string V)
    : gmap string (gmap string V) :=
  <[PYTORCH := torch_models_dict]> (<[TENSORFLOW := tf_models_dict]> ∅).

Definition get_model {V : Type} (models : gmap string (gmap string V))
    (fw_name hw_name : string) : result (option V) :=
  b <- py_in fw_name (Some models) ;;
  py_assert b ;;;
  supported_models_by_fw <- py_get (Some models) fw_name ;;
  b <- py_in hw_name supported_models_by_fw ;;
  py_assert b ;;;
  by_fw <- py_get (Some models) fw_name ;;
  py_get by_fw hw_name.

(** [target_platform_version] is [None] when the argument is left out. *)
Definition get_target_platform_capabilities {V : Type} (LATEST : string)
    (tpc_dict : gmap string (gmap string (gmap string V)))
    (fw_name target_platform_name : string)
    (target_platform_version : option string) : result (option V) :=
  b <- py_in target_platform_name (Some tpc_dict) ;;
  py_assert b ;;;
  fw_tpc <- py_get (Some tpc_dict) target_platform_name ;;
  b <- py_in fw_name fw_tpc ;;
  py_assert b ;;;
  tpc_versions <- py_get fw_tpc fw_name ;;
  target_platform_version <-
    match target_platform_version with
    | None => Return LATEST
    | Some version =>
        b <- py_in version tpc_versions ;;
        py_assert b ;;;
        Return version
    end ;;
  py_get tpc_versions target_platform_version.

(** The entry of a two-level table, when both keys are present. *)
Definition registered {V : Type} (models : gmap string (gmap string V))
    (fw_name hw_name : string) : option V :=
  models !! fw_name ≫= (fun by_fw => by_fw !! hw_name).

End TargetPlatformLookup.

(** ** core/keras/keras_implementation.py *)

Module KerasImplementation.

Local Open Scope py_scope.

(** The layer classes and functions the two methods compare a node's type
    with; every other type is [OtherLayer]. *)
Inductive layer_type : Type :=
| Activation
| tf_nn_softmax
| tf_nn_sigmoid
| Conv2D
| DepthwiseConv2D
| Conv2DTranspose
| Dense
| Concatenate
| Add
| tf_add
| OtherLayer (name : string).

#[global] Instance layer_type_eq_dec : EqDecision layer_type.
Proof. solve_decision. Defined.

(** The names of [keras/constants.py] the methods read. *)
Record keras_constants : Type := {
  ACTIVATION : string;
  SOFTMAX : string;
  SIGMOID : string
}.

(** The function objects [get_node_distance_fn] returns: the two imported
    metrics, the anonymous
    [lambda x, y: compute_mse(x, y, norm=False, norm_eps=1e-8)],
    or the caller's own function. *)
Inductive distance_fn (F : Type) : Type :=
| compute_kl_divergence
| compute_cs
| compute_mse_unnormalized
| given (f : F).
Arguments compute_kl_divergence {F}.
Arguments compute_cs {F}.
Arguments compute_mse_unnormalized {F}.
Arguments given {F} f.

(** [d[key]] on a dictionary. *)
Definition getitem (d : gmap string string) (key : string) : result string :=
  match d !! key with
  | Some v => Return v
  | None => Raise KeyError
  end.

Record Node : Type := {
  type : layer_type;
  framework_attr : gmap string string
}.

Definition count_node_for_mixed_precision_interest_points
    (keras : keras_constants) (node : Node) : result bool :=
  if decide (type node = Activation) then
    node_type_name <- getitem (framework_attr node) (ACTIVATION keras) ;;
    if bool_decide (node_type_name ∈ [SOFTMAX keras; SIGMOID keras])
    then Return true
    else Return false
  else if bool_decide
            (type node ∈ [tf_nn_softmax; tf_nn_sigmoid; Conv2D;
                          DepthwiseConv2D; Conv2DTranspose; Dense;
                          Concatenate; Add; tf_add])
  then Return true
  else Return false.

Definition get_node_distance_fn {F : Type} (keras : keras_constants)
    (layer_class : layer_type) (framework_attrs : gmap string string)
    (compute_distance_fn : option F) : result (distance_fn F) :=
  match compute_distance_fn with
  | Some f => Return (given f)
  | None =>
      if decide (layer_class = Activation) then
        node_type_name <- getitem framework_attrs (ACTIVATION keras) ;;
        if bool_decide (node_type_name = SOFTMAX keras)
           || bool_decide (node_type_name = SIGMOID keras)
        then Return compute_kl_divergence
        else Return compute_mse_unnormalized
      else if bool_decide (layer_class = tf_nn_softmax)
              || bool_decide (layer_class = tf_nn_sigmoid)
      then Return compute_kl_divergence
      else if decide (layer_class = Dense)
      then Return compute_cs
      else Return compute_mse_unnormalized
  end.

(** The distance functions other than the unnormalized mean squared
    error. *)
Definition is_dedicated {F : Type} (d : distance_fn F) : bool :=
  match d with
  | compute_kl_divergence | compute_cs => true
  | compute_mse_unnormalized | given _ => false
  end.

End KerasImplementation.

(** * Properties of the similarity metrics *)

Section SimilarityFacts.

Import SimilarityAnalyzer.
Local Open Scope R_scope.

Lemma validate_same_shape (x y : ndarray R) :
  shape x = shape y ->
  validate_before_compute_similarity x y = Return tt.
Proof.
  intros H. unfold validate_before_compute_similarity.
  destruct (decide (shape x = shape y)); [reflexivity | contradiction].
Qed.

Lemma validate_shape_mismatch (x y : ndarray R) :
  shape x <> shape y ->
  validate_before_compute_similarity x y = Raise AssertionError.
Proof.
  intros H. unfold validate_before_compute_similarity.
  destruct (decide (shape x = shape y)); [contradiction | reflexivity].
Qed.

Lemma Rsum_sq_nonneg (l : list R) : 0 <= Rsum (map sq l).
Proof.
  induction l as [|v l IH]; simpl; [lra|].
  unfold sq at 1. pose proof (pow2_ge_0 v). lra.
Qed.

Lemma np_power_abs_2 (v : R) : np_power (Rabs v) 2 = Finite (sq v).
Proof.
  unfold np_power, sq.
  destruct (decide (Rabs v = 0)) as [Hz|Hnz].
  - destruct (decide (2 = 0)) as [H2|_]; [lra|].
    destruct (Rlt_dec 0 2) as [_|H2]; [|lra].
    destruct (Req_dec v 0) as [->|Hv]; [f_equal; lra|].
    exfalso. revert Hz. apply Rabs_no_R0. exact Hv.
  - pose proof (Rabs_pos v) as Hpos.
    destruct (Rlt_dec 0 (Rabs v)) as [Hlt|]; [|lra].
    f_equal. replace 2 with (INR 2) by (simpl; lra).
    rewrite Rpower_pow by exact Hlt.
    rewrite RPow_abs. apply Rabs_pos_eq. apply pow2_ge_0.
Qed.

Lemma np_power_half (s : R) : 0 <= s -> np_power s (1 / 2) = Finite (sqrt s).
Proof.
  intros Hs. unfold np_power.
  destruct (decide (s = 0)) as [->|Hnz].
  - destruct (decide (1 / 2 = 0)) as [H|_]; [lra|].
    destruct (Rlt_dec 0 (1 / 2)) as [_|H]; [|lra].
    now rewrite sqrt_0.
  - destruct (Rlt_dec 0 s) as [Hlt|]; [|lra].
    f_equal. replace (1 / 2) with (/ 2) by lra.
    apply Rpower_sqrt. exact Hlt.
Qed.

Lemma nf_sum_abs_powers (l : list R) :
  nf_sum (map (fun v => np_power (Rabs v) 2) l) = Finite (Rsum (map sq l)).
Proof.
  induction l as [|v l IH]; [reflexivity|].
  cbn [map]. unfold nf_sum in *. cbn [foldr].
  rewrite IH, np_power_abs_2. reflexivity.
Qed.

(** The Euclidean norm, as [tensor_norm] computes it with [p = 2]. *)
Lemma tensor_norm_2 (x : ndarray R) :
  tensor_norm x 2 = Return (Finite (sqrt (Rsum (map sq (data x))))).
Proof.
  unfold tensor_norm.
  destruct (decide (2 = 0)) as [H|_]; [lra|].
  rewrite nf_sum_abs_powers. simpl.
  now rewrite np_power_half by apply Rsum_sq_nonneg.
Qed.

Lemma np_all_zero_spec (l : list R) :
  np_all_zero l = true <-> Forall (fun v => v = 0) l.
Proof.
  unfold np_all_zero. rewrite forallb_forall, Forall_forall.
  split; intros H v Hv.
  - apply list_elem_of_In in Hv. apply H in Hv.
    now apply bool_decide_eq_true in Hv.
  - apply bool_decide_eq_true. apply H. now apply list_elem_of_In.
Qed.

Lemma compute_cs_all_zero (x y : ndarray R) (eps : R) :
  shape x = shape y ->
  np_all_zero (data y) && np_all_zero (data x) = true ->
  compute_cs x y eps = Return (Finite 1).
Proof.
  intros Hs Hz. unfold compute_cs.
  rewrite validate_same_shape by exact Hs. cbn [bind].
  now rewrite Hz.
Qed.

End SimilarityFacts.

Section SimilarityClaims.

Import SimilarityAnalyzer.
Local Open Scope R_scope.

(** C5.  When both tensors are identically zero, [compute_cs] returns
    exactly 1.0. *)
Theorem compute_cs_zero_tensors (x y : ndarray R) (eps : R) :
  shape x = shape y ->
  Forall (fun v => v = 0) (data x) ->
  Forall (fun v => v = 0) (data y) ->
  compute_cs x y eps = Return (Finite 1).
Proof.
  intros Hs Hx Hy. apply compute_cs_all_zero; [exact Hs|].
  apply np_all_zero_spec in Hx, Hy. now rewrite Hx, Hy.
Qed.

Lemma compute_cs_zero_tensors_witness :
  compute_cs (mk_ndarray [1%nat; 2%nat] [0; 0])
             (mk_ndarray [1%nat; 2%nat] [0; 0]) default_eps
  = Return (Finite 1).
Proof.
  apply compute_cs_zero_tensors;
    [reflexivity | repeat constructor | repeat constructor].
Defined.

(** C6.  When the shapes differ, each of the six metrics raises the
    assertion error of the validation and computes nothing: shapes that
    numpy could broadcast are rejected like the others. *)
Theorem metrics_reject_shape_mismatch (x y : ndarray R) :
  shape x <> shape y ->
  (forall norm norm_eps, compute_mse x y norm norm_eps = Raise AssertionError) /\
  (forall norm norm_eps, compute_mae x y norm norm_eps = Raise AssertionError) /\
  (forall eps, compute_cs x y eps = Raise AssertionError) /\
  (forall p norm norm_eps,
      compute_lp_norm x y p norm norm_eps = Raise AssertionError) /\
  compute_nmse x y = Raise AssertionError /\
  compute_nmae x y = Raise AssertionError.
Proof.
  intros Hs.
  unfold compute_mse, compute_mae, compute_cs, compute_lp_norm,
    compute_nmse, compute_nmae.
  rewrite validate_shape_mismatch by exact Hs.
  repeat split; intros; reflexivity.
Qed.

Lemma metrics_reject_shape_mismatch_witness :
  compute_mse (mk_ndarray [2%nat] [1; 2]) (mk_ndarray [1%nat; 2%nat] [1; 2])
              false default_eps = Raise AssertionError /\
  compute_cs (mk_ndarray [2%nat] [1; 2]) (mk_ndarray [1%nat; 2%nat] [1; 2])
             default_eps = Raise AssertionError /\
  compute_nmae (mk_ndarray [2%nat] [1; 2]) (mk_ndarray [1%nat; 2%nat] [1; 2])
  = Raise AssertionError.
Proof.
  destruct (metrics_reject_shape_mismatch
              (mk_ndarray [2%nat] [1; 2]) (mk_ndarray [1%nat; 2%nat] [1; 2]))
    as (Hmse & _ & Hcs & _ & _ & Hnmae).
  - cbn [shape]. discriminate.
  - split; [apply Hmse|]. split; [apply Hcs | exact Hnmae].
Defined.

End SimilarityClaims.

(** * Properties of the similarity metrics on float64 arrays *)

Section SpecFloatFacts.

Import Floats.

Local Open Scope Z_scope.

Lemma digits2_pos_lower (p : positive) :
  2 ^ (Z.pos (digits2_pos p) - 1) <= Z.pos p.
Proof.
  induction p as [p IH|p IH|]; cbn [digits2_pos].
  - rewrite Pos2Z.inj_succ.
    replace (Z.succ (Z.pos (digits2_pos p)) - 1)
      with (Z.succ (Z.pos (digits2_pos p) - 1)) by lia.
    rewrite Z.pow_succ_r by lia. lia.
  - rewrite Pos2Z.inj_succ.
    replace (Z.succ (Z.pos (digits2_pos p)) - 1)
      with (Z.succ (Z.pos (digits2_pos p) - 1)) by lia.
    rewrite Z.pow_succ_r by lia. lia.
  - cbn. lia.
Qed.

Lemma shr_1_m (mrs : shr_record) :
  0 <= shr_m mrs -> shr_m (shr_1 mrs) = shr_m mrs / 2.
Proof.
  destruct mrs as [m r s]. cbn [shr_m shr_1]. intros Hm.
  destruct m as [|[p|p|]|p]; cbn [shr_m]; try lia; try reflexivity.
  - apply Z.div_unique with (r := 1); lia.
  - apply Z.div_unique with (r := 0); lia.
Qed.

Lemma iter_shr_m (k : positive) :
  forall mrs, 0 <= shr_m mrs ->
    shr_m (SpecFloat.iter_pos shr_1 k mrs) = shr_m mrs / 2 ^ Z.pos k.
Proof.
  induction k as [k IH|k IH|]; intros mrs Hm; cbn [SpecFloat.iter_pos].
  - assert (H1 : 0 <= shr_m (shr_1 mrs))
      by (rewrite shr_1_m by exact Hm; apply Z.div_pos; lia).
    assert (H2 : 0 <= shr_m (SpecFloat.iter_pos shr_1 k (shr_1 mrs)))
      by (rewrite IH by exact H1; apply Z.div_pos; [exact H1|lia]).
    rewrite IH by exact H2. rewrite IH by exact H1.
    rewrite shr_1_m by exact Hm.
    assert (Hp : 2 ^ Z.pos k~1 = 2 * 2 ^ Z.pos k * 2 ^ Z.pos k).
    { replace (Z.pos k~1) with (1 + Z.pos k + Z.pos k) by lia.
      rewrite !Z.pow_add_r by lia. rewrite Z.pow_1_r. reflexivity. }
    rewrite Hp. pose proof (Z.pow_pos_nonneg 2 (Z.pos k) ltac:(lia) ltac:(lia)).
    rewrite !Z.div_div by lia. f_equal. lia.
  - assert (H2 : 0 <= shr_m (SpecFloat.iter_pos shr_1 k mrs))
      by (rewrite IH by exact Hm; apply Z.div_pos; [exact Hm|lia]).
    rewrite IH by exact H2. rewrite IH by exact Hm.
    assert (Hp : 2 ^ Z.pos k~0 = 2 ^ Z.pos k * 2 ^ Z.pos k).
    { replace (Z.pos k~0) with (Z.pos k + Z.pos k) by lia.
      rewrite Z.pow_add_r by lia. reflexivity. }
    rewrite Hp. pose proof (Z.pow_pos_nonneg 2 (Z.pos k) ltac:(lia) ltac:(lia)).
    rewrite Z.div_div by lia. reflexivity.
  - rewrite shr_1_m by exact Hm. rewrite Z.pow_1_r. reflexivity.
Qed.

Lemma shr_m_of_loc (m : Z) (l : location) :
  shr_m (shr_record_of_loc m l) = m.
Proof. destruct l as [|[]]; reflexivity. Qed.

Lemma shr_fexp_positive (m e : Z) (l : location) :
  0 < m -> emin <= e ->
  0 < shr_m (fst (shr_fexp prec emax m e l)) /\
  emin <= snd (shr_fexp prec emax m e l).
Proof.
  intros Hm He. unfold shr_fexp, shr.
  destruct m as [|p|p]; try lia. cbn [Zdigits2].
  remember (fexp prec emax (Z.pos (digits2_pos p) + e) - e) as n eqn:Hn.
  destruct n as [|k|k]; cbn [fst snd]; rewrite ?shr_m_of_loc; try lia.
  rewrite iter_shr_m by (rewrite shr_m_of_loc; lia).
  rewrite shr_m_of_loc.
  unfold fexp in Hn.
  assert (Hk : Z.pos k = Z.pos (digits2_pos p) - prec) by lia.
  split; [|lia].
  apply Z.div_str_pos. split; [apply Z.pow_pos_nonneg; lia|].
  pose proof (digits2_pos_lower p) as Hlow.
  eapply Z.le_trans; [|exact Hlow].
  apply Z.pow_le_mono_r; [lia|]. rewrite Hk. unfold prec. lia.
Qed.

Lemma round_nearest_even_ge (m : Z) (l : location) :
  m <= round_nearest_even m l.
Proof.
  destruct l as [|[]]; cbn; try lia. destruct (Z.even m); lia.
Qed.

Lemma binary_round_aux_positive (s : bool) (m e : Z) (l : location) :
  0 < m -> emin <= e ->
  (exists m' e', binary_round_aux prec emax s m e l = S754_finite s m' e') \/
  binary_round_aux prec emax s m e l = S754_infinity s.
Proof.
  intros Hm He. unfold binary_round_aux.
  destruct (shr_fexp_positive m e l Hm He) as [H1 H1e].
  destruct (shr_fexp prec emax m e l) as [mrs' e'] eqn:E1.
  cbn [fst snd] in H1, H1e.
  pose proof (round_nearest_even_ge (shr_m mrs') (loc_of_shr_record mrs'))
    as Hr.
  set (m1 := round_nearest_even (shr_m mrs') (loc_of_shr_record mrs')) in *.
  destruct (shr_fexp_positive m1 e' loc_Exact ltac:(lia) H1e) as [H2 _].
  destruct (shr_fexp prec emax m1 e' loc_Exact) as [mrs'' e''] eqn:E2.
  cbn [fst] in H2.
  destruct (shr_m mrs'') as [|q|q]; try lia.
  destruct (e'' <=? emax - prec); eauto.
Qed.

Lemma binary_normalize_positive (p : positive) :
  (exists m' e',
      binary_normalize prec emax (Z.pos p) 0 false = S754_finite false m' e') \/
  binary_normalize prec emax (Z.pos p) 0 false = S754_infinity false.
Proof.
  cbn [binary_normalize]. unfold binary_round.
  destruct (shl_align p 0 (fexp prec emax (Z.pos (digits2_pos p) + 0)))
    as [mz ez] eqn:E.
  apply binary_round_aux_positive; [lia|].
  unfold shl_align in E.
  destruct (fexp prec emax (Z.pos (digits2_pos p) + 0) - 0) eqn:E';
    injection E as <- <-; try (unfold emin, prec, emax; lia).
  unfold fexp. lia.
Qed.

End SpecFloatFacts.

Section RoundingFacts.

Import Floats.

Local Open Scope Z_scope.








End RoundingFacts.

Section HalfOfOneMinus.

Import Floats.

Local Open Scope Z_scope.



Local Open Scope float_scope.


End HalfOfOneMinus.

Section FloatFacts.

Import Floats Float64.
Local Open Scope float_scope.

Lemma finite_cases (v : float) :
  is_finite v = true ->
  (exists s, Prim2SF v = S754_zero s) \/
  (exists s m e, Prim2SF v = S754_finite s m e).
Proof.
  unfold is_finite, Prim2SF.
  destruct (is_nan v); [discriminate|].
  destruct (is_infinity v); [discriminate|]. intros _.
  destruct (is_zero v); [eauto|].
  destruct (Z.frexp v) as [r exp].
  destruct (shr_fexp prec emax _ _ _) as [shr e'].
  destruct (shr_m shr); eauto.
Qed.

Lemma not_finite_cases (v : float) :
  is_finite v = false ->
  Prim2SF v = S754_nan \/ exists s, Prim2SF v = S754_infinity s.
Proof.
  unfold is_finite. intros H.
  destruct (is_nan v) eqn:En.
  - left. unfold Prim2SF. now rewrite En.
  - destruct (is_infinity v) eqn:Ei; [|discriminate]. right.
    assert (Hz : is_zero v = false).
    { destruct (is_zero v) eqn:Ez; [|reflexivity]. exfalso.
      assert (Hv : exists s, Prim2SF v = S754_zero s)
        by (unfold Prim2SF; rewrite En, Ez; eauto).
      destruct Hv as [s Hv].
      unfold is_infinity in Ei. rewrite FloatAxioms.eqb_spec, FloatAxioms.abs_spec, Hv in Ei.
      discriminate. }
    unfold Prim2SF. rewrite En, Hz, Ei. eauto.
Qed.

Lemma float_sub_self (v : float) : is_finite v = true -> v - v = 0.
Proof.
  intros H. apply Prim2SF_inj. rewrite FloatAxioms.sub_spec.
  destruct (finite_cases v H) as [[s E]|(s & m & e & E)]; rewrite E.
  - destruct s; reflexivity.
  - unfold SF64sub, SFsub. rewrite Z.min_id. unfold shl_align.
    rewrite !Z.sub_diag. reflexivity.
Qed.

Lemma float_sub_self_not_finite (v : float) : is_finite v = false -> v - v = nan.
Proof.
  intros H. apply Prim2SF_inj. rewrite FloatAxioms.sub_spec.
  destruct (not_finite_cases v H) as [E|[s E]]; rewrite E.
  - reflexivity.
  - destruct s; reflexivity.
Qed.

Lemma add_nan_l (y : float) : nan + y = nan.
Proof. apply Prim2SF_inj. rewrite FloatAxioms.add_spec. reflexivity. Qed.

Lemma add_nan_r (y : float) : y + nan = nan.
Proof.
  apply Prim2SF_inj. rewrite FloatAxioms.add_spec.
  change (Prim2SF nan) with S754_nan.
  destruct (Prim2SF y) as [[]|[]| |[] m e]; reflexivity.
Qed.

Lemma div_nan_l (y : float) : nan / y = nan.
Proof. apply Prim2SF_inj. rewrite FloatAxioms.div_spec. reflexivity. Qed.

Lemma count_positive (n : nat) :
  (0 < n)%nat -> (Z.of_nat n < Uint63.wB)%Z ->
  (exists m e, Prim2SF (count n) = S754_finite false m e) \/
  Prim2SF (count n) = S754_infinity false.
Proof.
  intros Hn Hb. unfold count.
  rewrite of_uint63_spec, Uint63.of_Z_spec, Z.mod_small by lia.
  destruct (Z.of_nat n) as [|p|p] eqn:E; try lia.
  apply binary_normalize_positive.
Qed.

Lemma zero_div_count (n : nat) :
  (0 < n)%nat -> (Z.of_nat n < Uint63.wB)%Z -> 0 / count n = 0.
Proof.
  intros Hn Hb. apply Prim2SF_inj. rewrite FloatAxioms.div_spec.
  change (Prim2SF 0) with (S754_zero false).
  destruct (count_positive n Hn Hb) as [(m & e & E)|E]; rewrite E;
    reflexivity.
Qed.

Lemma mean_of_nothing (K : Kernel) :
  sums_in_some_order K -> np_mean K [] = nan.
Proof.
  intros HK. unfold np_mean. destruct (HK []) as (t & Ht & ->).
  cbn [length seq] in Ht. apply Permutation_nil_r in Ht.
  assert (Hz : total [] t = 0 \/ total [] t = -0).
  { clear HK. induction t as [i|s|t1 IH1 t2 IH2]; cbn [terms total] in *.
    - discriminate.
    - destruct s; auto.
    - apply app_eq_nil in Ht as [H1 H2].
      destruct (IH1 H1) as [->| ->], (IH2 H2) as [->| ->]; auto. }
  destruct Hz as [->| ->]; reflexivity.
Qed.

Lemma total_of_zeros (l : list float) (t : summation) :
  (forall i, i ∈ terms t -> nth i l 0 = 0) ->
  (terms t <> [] -> total l t = 0) /\
  (terms t = [] -> total l t = 0 \/ total l t = -0).
Proof.
  induction t as [i|s|t1 IH1 t2 IH2]; cbn [terms total]; intros Hz.
  - split; [|discriminate]. intros _. apply Hz, list_elem_of_here.
  - split; [congruence|]. intros _. destruct s; auto.
  - destruct IH1 as [IH1a IH1b].
    { intros i Hi. apply Hz. apply elem_of_app. auto. }
    destruct IH2 as [IH2a IH2b].
    { intros i Hi. apply Hz. apply elem_of_app. auto. }
    split.
    + intros Hne.
      destruct (terms t1) as [|a1 r1] eqn:E1, (terms t2) as [|a2 r2] eqn:E2.
      * contradiction.
      * rewrite IH2a by discriminate.
        destruct (IH1b eq_refl) as [->| ->]; reflexivity.
      * rewrite IH1a by discriminate.
        destruct (IH2b eq_refl) as [->| ->]; reflexivity.
      * rewrite IH1a, IH2a by discriminate. reflexivity.
    + intros Hnil. apply app_eq_nil in Hnil as [H1 H2].
      destruct (IH1b H1) as [->| ->], (IH2b H2) as [->| ->]; auto.
Qed.

Lemma mean_of_zeros (K : Kernel) (l : list float) :
  sums_in_some_order K ->
  l <> [] -> (Z.of_nat (length l) < Uint63.wB)%Z ->
  Forall (fun v => v = 0) l ->
  np_mean K l = 0.
Proof.
  intros HK Hne Hb Hz. unfold np_mean.
  destruct (HK l) as (t & Ht & ->).
  destruct (total_of_zeros l t) as [Hsum _].
  { intros i Hi. rewrite Ht in Hi. apply elem_of_seq in Hi.
    rewrite Forall_forall in Hz. apply Hz.
    apply list_elem_of_In. apply nth_In. lia. }
  rewrite Hsum.
  - apply zero_div_count; [|exact Hb]. destruct l; [contradiction|cbn; lia].
  - intros Hnil. rewrite Hnil in Ht. apply Permutation_nil_l in Ht.
    destruct l; [contradiction | discriminate].
Qed.

Lemma total_with_nan (l : list float) (t : summation) (i : nat) :
  i ∈ terms t -> nth i l 0 = nan -> total l t = nan.
Proof.
  intros Hi Hn. induction t as [j|s|t1 IH1 t2 IH2]; cbn [terms total] in *.
  - apply list_elem_of_singleton in Hi as <-. exact Hn.
  - now apply elem_of_nil in Hi.
  - apply elem_of_app in Hi as [Hi|Hi].
    + rewrite (IH1 Hi). apply add_nan_l.
    + rewrite (IH2 Hi). apply add_nan_r.
Qed.

Lemma mean_with_nan (K : Kernel) (l : list float) :
  sums_in_some_order K -> nan ∈ l -> np_mean K l = nan.
Proof.
  intros HK Hin. unfold np_mean. destruct (HK l) as (t & Ht & ->).
  apply list_elem_of_In, (In_nth _ _ 0) in Hin as (i & Hi & Hn).
  rewrite (total_with_nan l t i); [apply div_nan_l| |exact Hn].
  rewrite Ht. apply elem_of_seq. lia.
Qed.

End FloatFacts.

Section Float64Sums.

Import Floats Float64.
Local Open Scope float_scope.

Lemma fold_left_total (suffix : list float) :
  forall (prefix : list float) (t : summation),
    terms t = seq 0 (length prefix) ->
    exists t',
      terms t' = seq 0 (length (prefix ++ suffix)) /\
      fold_left add suffix (total (prefix ++ suffix) t)
      = total (prefix ++ suffix) t'.
Proof.
  induction suffix as [|v s' IH]; intros prefix t Ht.
  - exists t. rewrite app_nil_r. auto.
  - cbn [fold_left].
    destruct (IH (prefix ++ [v]) (node t (leaf (length prefix))))
      as (t' & Ht' & Hsum).
    { cbn [terms]. rewrite Ht, length_app. cbn [length].
      rewrite Nat.add_1_r, seq_S. reflexivity. }
    rewrite <- app_assoc in Ht', Hsum. cbn [app] in Ht', Hsum.
    exists t'. split; [exact Ht'|]. rewrite <- Hsum. f_equal.
    cbn [total]. f_equal.
    rewrite app_nth2 by lia. rewrite Nat.sub_diag. reflexivity.
Qed.

Lemma left_to_right_sums : sums_in_some_order left_to_right.
Proof.
  intros l. cbn [add_reduce left_to_right].
  destruct (fold_left_total l [] (start false) eq_refl) as (t & Ht & Hsum).
  exists t. cbn [app] in *. rewrite Ht. split; [reflexivity|exact Hsum].
Qed.

(** Adding a zero, of either sign, on either side leaves [a] as it is. *)
Lemma total_of_pair (a b : float) (t : summation) :
  absorbs_zeros a -> absorbs_zeros b -> absorbs_zeros (a + b) ->
  b + a = a + b ->
  NoDup (terms t) -> (forall i, i ∈ terms t -> (i < 2)%nat) ->
  match bool_decide (0%nat ∈ terms t), bool_decide (1%nat ∈ terms t) with
  | true, true => total [a; b] t = a + b
  | true, false => total [a; b] t = a
  | false, true => total [a; b] t = b
  | false, false => total [a; b] t = 0 \/ total [a; b] t = -0
  end.
Proof.
  intros (Ha1 & Ha2 & Ha3 & Ha4) (Hb1 & Hb2 & Hb3 & Hb4)
         (Hc1 & Hc2 & Hc3 & Hc4) Hcomm.
  induction t as [i|s|t1 IH1 t2 IH2]; cbn [terms total]; intros Hnd Hlt.
  - assert (Hi : (i < 2)%nat) by (apply Hlt, list_elem_of_here).
    destruct i as [|[|i]]; [| |lia].
    + rewrite bool_decide_eq_true_2 by apply list_elem_of_here.
      rewrite bool_decide_eq_false_2; [reflexivity|].
      intros H. apply list_elem_of_singleton in H. discriminate.
    + rewrite bool_decide_eq_false_2.
      * rewrite bool_decide_eq_true_2 by apply list_elem_of_here.
        reflexivity.
      * intros H. apply list_elem_of_singleton in H. discriminate.
  - rewrite !bool_decide_eq_false_2 by apply not_elem_of_nil.
    destruct s; auto.
  - apply NoDup_app in Hnd as (Hnd1 & Hdisj & Hnd2).
    specialize (IH1 Hnd1 (fun i Hi => Hlt i (proj2 (elem_of_app _ _ i) (or_introl Hi)))).
    specialize (IH2 Hnd2 (fun i Hi => Hlt i (proj2 (elem_of_app _ _ i) (or_intror Hi)))).
    assert (H0 : bool_decide (0%nat ∈ terms t1 ++ terms t2)
                 = bool_decide (0%nat ∈ terms t1)
                   || bool_decide (0%nat ∈ terms t2)).
    { apply eq_true_iff_eq. rewrite orb_true_iff, !bool_decide_eq_true.
      apply elem_of_app. }
    assert (H1 : bool_decide (1%nat ∈ terms t1 ++ terms t2)
                 = bool_decide (1%nat ∈ terms t1)
                   || bool_decide (1%nat ∈ terms t2)).
    { apply eq_true_iff_eq. rewrite orb_true_iff, !bool_decide_eq_true.
      apply elem_of_app. }
    rewrite H0, H1. clear H0 H1.
    pose proof (Hdisj 0%nat) as D0. pose proof (Hdisj 1%nat) as D1.
    destruct (bool_decide (0%nat ∈ terms t1)) eqn:E01,
             (bool_decide (1%nat ∈ terms t1)) eqn:E11,
             (bool_decide (0%nat ∈ terms t2)) eqn:E02,
             (bool_decide (1%nat ∈ terms t2)) eqn:E12;
      cbn [orb];
      try (apply bool_decide_eq_true in E01);
      try (apply bool_decide_eq_true in E02);
      try (apply bool_decide_eq_true in E11);
      try (apply bool_decide_eq_true in E12);
      try (exfalso; apply (D0 E01 E02));
      try (exfalso; apply (D1 E11 E12));
      repeat match goal with
             | H : _ \/ _ |- _ => destruct H
             end;
      repeat match goal with
             | H : total _ _ = _ |- _ => rewrite H
             end;
      auto.
Qed.

Lemma sum_of_pair (K : Kernel) (a b : float) :
  sums_in_some_order K ->
  absorbs_zeros a -> absorbs_zeros b -> absorbs_zeros (a + b) ->
  b + a = a + b ->
  add_reduce K [a; b] = a + b.
Proof.
  intros HK Ha Hb Hc Hcomm. destruct (HK [a; b]) as (t & Ht & ->).
  pose proof (total_of_pair a b t Ha Hb Hc Hcomm) as H.
  rewrite !bool_decide_eq_true_2 in H
    by (rewrite Ht; apply elem_of_seq; cbn; lia).
  apply H.
  - rewrite Ht. apply NoDup_seq.
  - intros i Hi. rewrite Ht in Hi. apply elem_of_seq in Hi. cbn in Hi. lia.
Qed.

End Float64Sums.

Section Float64Claims.

Import Floats Float64.
Local Open Scope float_scope.

Lemma validate_same (x : ndarray float) :
  validate_before_compute_similarity x x = Return tt.
Proof.
  unfold validate_before_compute_similarity.
  now destruct (decide (shape x = shape x)).
Qed.

Lemma differences_of_finite (l : list float) :
  Forall finite l -> Forall (fun v => v = 0) (zip_with sub l l).
Proof.
  induction 1 as [|v l Hv _ IH]; cbn [zip_with]; constructor;
    [now apply float_sub_self | exact IH].
Qed.

Lemma differences_of_not_finite (l : list float) :
  Exists (fun v => ~ finite v) l -> nan ∈ zip_with sub l l.
Proof.
  induction 1 as [v l Hv|v l _ IH]; cbn [zip_with].
  - rewrite float_sub_self_not_finite; [apply list_elem_of_here|].
    unfold finite in Hv. now destruct (is_finite v).
  - now apply list_elem_of_further.
Qed.

Lemma Forall_zero_map (f : float -> float) (l : list float) :
  f 0 = 0 -> Forall (fun v => v = 0) l -> Forall (fun v => v = 0) (map f l).
Proof.
  intros Hf. induction 1 as [|v l -> _ IH]; cbn [map]; constructor; auto.
Qed.

Lemma elem_of_nan_map (f : float -> float) (l : list float) :
  f nan = nan -> nan ∈ l -> nan ∈ map f l.
Proof.
  intros Hf Hin. rewrite <- Hf. now apply list_elem_of_fmap_2.
Qed.

(** C7 (as amended).  For a float64 tensor [x] with at least one element,
    all of them finite, [compute_mse(x, x)] and [compute_mae(x, x)] return
    0.  For an array with no element both return nan, the mean of an empty
    array; and so they do when an element is an infinity or nan, whose
    difference with itself is nan.  [np.sum] may add in any order; the
    [pow] behind [np.power] maps 0 to 0 and nan to nan for the exponent 2;
    the array has less than 2^63 elements. *)
Theorem compute_mse_mae_self (K : Kernel) (x : ndarray float)
    (norm_eps : float) :
  sums_in_some_order K ->
  npy_pow K 0 2 = 0 ->
  npy_pow K nan 2 = nan ->
  (data x <> [] -> (Z.of_nat (length (data x)) < Uint63.wB)%Z ->
   Forall finite (data x) ->
   compute_mse K x x false norm_eps = Return 0 /\
   compute_mae K x x false norm_eps = Return 0) /\
  (data x = [] ->
   compute_mse K x x false norm_eps = Return nan /\
   compute_mae K x x false norm_eps = Return nan) /\
  (Exists (fun v => ~ finite v) (data x) ->
   compute_mse K x x false norm_eps = Return nan /\
   compute_mae K x x false norm_eps = Return nan).
Proof.
  intros HK Hpow0 Hpown.
  unfold compute_mse, compute_mae. rewrite validate_same. cbn [bind].
  assert (Hlen : length (zip_with sub (data x) (data x)) = length (data x)).
  { rewrite length_zip_with. lia. }
  split; [|split].
  - intros Hne Hb Hfin.
    pose proof (differences_of_finite _ Hfin) as Hz.
    assert (Hnz : zip_with sub (data x) (data x) <> []).
    { intros E. rewrite E in Hlen. destruct (data x); [contradiction|discriminate]. }
    split; f_equal; apply mean_of_zeros; try exact HK.
    + unfold np_power. intros E. apply map_eq_nil in E. contradiction.
    + unfold np_power. rewrite length_map, Hlen. exact Hb.
    + now apply Forall_zero_map.
    + intros E. apply map_eq_nil in E. contradiction.
    + rewrite length_map, Hlen. exact Hb.
    + now apply Forall_zero_map.
  - intros ->. cbn [zip_with np_power map].
    rewrite (mean_of_nothing K HK). auto.
  - intros Hex. pose proof (differences_of_not_finite _ Hex) as Hn.
    split; f_equal; apply mean_with_nan; try exact HK.
    + now apply elem_of_nan_map.
    + now apply elem_of_nan_map.
Qed.


(** In float64 the cosine can come out above 1, and the distance below
    0: here for a tensor and itself. *)
Lemma compute_cs_negative_in_float64 (K : Kernel) :
  sums_in_some_order K ->
  npy_pow K 1024 2 = 1048576 ->
  npy_pow K 14336 2 = 205520896 ->
  npy_pow K 206569472 0.5 = sqrt 206569472 ->
  compute_cs K (np_asarray [1024; 14336]) (np_asarray [1024; 14336])
    default_eps
  = Return (-0x1p-53).
Proof.
  intros HK H1 H2 H3.
  assert (Hsum : add_reduce K [1048576; 205520896] = 206569472).
  { rewrite (sum_of_pair K); [reflexivity|exact HK|..];
      repeat split; reflexivity. }
  unfold compute_cs, tensor_norm, np_sum, np_power.
  cbn [validate_before_compute_similarity np_asarray data shape map
       zip_with np_all_zero forallb].
  change (abs 1024) with 1024. change (abs 14336) with 14336.
  rewrite H1, H2.
  change (1024 * 1024) with 1048576.
  change (14336 * 14336) with 205520896.
  rewrite Hsum.
  change (1 / 2) with 0.5. rewrite H3.
  vm_compute. reflexivity.
Qed.

End Float64Claims.

Section Float64Examples.

Import Floats Float64.
Local Open Scope float_scope.

Lemma compute_mse_mae_self_witness :
  compute_mse left_to_right (np_asarray [1.5; -2]) (np_asarray [1.5; -2])
    false default_eps = Return 0 /\
  compute_mae left_to_right (np_asarray [1.5; -2]) (np_asarray [1.5; -2])
    false default_eps = Return 0.
Proof.
  destruct (compute_mse_mae_self left_to_right (np_asarray [1.5; -2])
              default_eps left_to_right_sums eq_refl eq_refl) as [H _].
  apply H; [discriminate | reflexivity | repeat constructor].
Defined.

(** C7 as stated fails: the mean of no element is nan, and so is the
    difference of an infinity and itself. *)
Lemma compute_mse_mae_not_zero :
  compute_mse left_to_right (np_asarray []) (np_asarray []) false default_eps
  = Return nan /\
  compute_mae left_to_right (np_asarray []) (np_asarray []) false default_eps
  = Return nan /\
  compute_mse left_to_right (np_asarray [infinity]) (np_asarray [infinity])
    false default_eps = Return nan /\
  compute_mae left_to_right (np_asarray [infinity]) (np_asarray [infinity])
    false default_eps = Return nan /\
  nan <> 0.
Proof.
  repeat split; try reflexivity.
  intros H. apply (f_equal is_nan) in H. discriminate.
Qed.



(** Where rounding absorbs [eps] the distance of a tensor and itself is
    0. *)
Example compute_cs_of_equal_large :
  compute_cs left_to_right (np_asarray [1e6]) (np_asarray [1e6]) default_eps
  = Return 0.
Proof. reflexivity. Qed.

End Float64Examples.

(** * Properties of the symmetric threshold selection *)

Section SelectionFacts.

Import SymmetricSelection.
Local Open Scope Q_scope.







End SelectionFacts.

Section SelectionClaims.

Import SymmetricSelection.
Local Open Scope Q_scope.

Variable B : SearchBackend.


End SelectionClaims.

Section SelectionExamples.

Import SymmetricSelection.
Local Open Scope Q_scope.

(** The end-to-end example of the specification: the tensor
    [-10, -5, 0, 5, 10] gets the threshold 10. *)
Example no_clipping_symmetric_tensor :
  symmetric_selection_tensor idle_backend
    (np_asarray [-10; -5; 0; 5; 10]) 2 8 false 1 10 (1 # 268435456)
    (Member NOCLIPPING)
  = Return {[ THRESHOLD := Scalar 10 ]}.
Proof. reflexivity. Qed.

(** The range (-10, 5) gets the threshold 5, not 10. *)
Example min_max_of_minus10_5 :
  symmetric_no_clipping_selection_min_max idle_backend
    [] [] 2 8 (-10) 5 false 10 (1 # 268435456) (Member NOCLIPPING)
  = Return {[ THRESHOLD := Scalar 5 ]}.
Proof. reflexivity. Qed.

(** The flag is the one of the whole tensor: the second channel of
    [[-1], [2]] holds no negative value and is still quantized on a signed
    grid. *)
Example second_channel_takes_tensor_flag :
  symmetric_selection_tensor probe_backend
    (mk_ndarray [2%nat; 1%nat] [-1; 2]) 2 8 true 0 10 (1 # 268435456)
    (Member MSE)
  = Return {[ THRESHOLD := PerChannel (np_asarray [1; 1]) ]}.
Proof. reflexivity. Qed.

Example non_negative_tensor_is_unsigned :
  symmetric_selection_tensor probe_backend
    (mk_ndarray [2%nat; 1%nat] [1; 2]) 2 8 true 0 10 (1 # 268435456)
    (Member MSE)
  = Return {[ THRESHOLD := PerChannel (np_asarray [0; 0]) ]}.
Proof. reflexivity. Qed.

End SelectionExamples.

(** * Properties of the symmetric threshold selection on typed arrays *)

Section TypedFacts.

Import TypedSelection.
Local Open Scope Q_scope.














End TypedFacts.

Section TypedClaims.

Import TypedSelection.
Local Open Scope Q_scope.

Variable B : SearchBackend.





End TypedClaims.

Section TypedExamples.

Import TypedSelection.
Local Open Scope Q_scope.



(** The assignment casts: on an integer array the minimum 0.5 is stored
    as 0. *)
Example min_threshold_is_cast_to_the_dtype :
  get_init_threshold (Fin (1 # 2))
    (PerChannel (mk_tensor (signed_int 64)
                   (np_asarray [Fin 0; Fin 5]))) true
  = Return (PerChannel (mk_tensor (signed_int 64)
                          (np_asarray [Fin 0; Fin 5]))).
Proof. reflexivity. Qed.

End TypedExamples.

(** * Properties of the dispatch of the search functions *)

Section DispatchClaims.

Import ParamsFnSelection.

Lemma weights_dispatch_returns (m : tag QuantizationMethod)
    (e : tag QuantizationErrorMethod) :
  weights_method_handled m = true ->
  exists v, get_weights_quantization_params_fn m e = Return v.
Proof.
  destruct m as [[]|]; cbn; intros H; try discriminate; eauto.
Qed.

Example activation_dispatch_rejects_kmeans :
  get_activation_quantization_params_fn (Member KMEANS) (Member MSE)
  = Raise (Exception
             "No params function for the configuration of quantization method QuantizationMethod.KMEANS and quantization error method QuantizationErrorMethod.MSE").
Proof. reflexivity. Qed.

Example weights_dispatch_power_of_two_mse :
  get_weights_quantization_params_fn (Member POWER_OF_TWO) (Member MSE)
  = Return (Callable Fn.mse_selection_tensor).
Proof. reflexivity. Qed.

(** C1 (as amended).  A dispatcher raises, at dispatch, exactly for the
    methods it has no branch for (none of the five for the weights; other
    than POWER_OF_TWO, SYMMETRIC and UNIFORM for the activations),
    whatever the error method is, and what it raises is the configuration
    error.  For a method it handles and one of the five error methods it
    returns a search function.  For a handled method other than
    POWER_OF_TWO the error method is not looked at: one function is
    returned for every error method. *)
Theorem dispatch_by_method :
  (forall m e, raises (get_weights_quantization_params_fn m e)
               <-> weights_method_handled m = false) /\
  (forall m e, raises (get_activation_quantization_params_fn m e)
               <-> activation_method_handled m = false) /\
  (forall m e, weights_method_handled m = false ->
     get_weights_quantization_params_fn m e
     = Raise (no_params_function m e)) /\
  (forall m e, activation_method_handled m = false ->
     get_activation_quantization_params_fn m e
     = Raise (no_params_function m e)) /\
  (forall m e, weights_method_handled m = true -> is_member e = true ->
     exists f, get_weights_quantization_params_fn m e
               = Return (Callable f)) /\
  (forall m e, activation_method_handled m = true -> is_member e = true ->
     exists f, get_activation_quantization_params_fn m e
               = Return (Callable f)) /\
  (forall m, weights_method_handled m = true ->
     m <> Member POWER_OF_TWO ->
     exists f, forall e, get_weights_quantization_params_fn m e
                         = Return (Callable f)) /\
  (forall m, activation_method_handled m = true ->
     m <> Member POWER_OF_TWO ->
     exists f, forall e, get_activation_quantization_params_fn m e
                         = Return (Callable f)).
Proof.
  repeat split.
  - intros [e' He']. destruct m as [[]|]; cbn in *; congruence.
  - intros H. destruct m as [[]|]; cbn in *; try discriminate;
      eexists; reflexivity.
  - intros [e' He']. destruct m as [[]|]; cbn in *; congruence.
  - intros H. destruct m as [[]|]; cbn in *; try discriminate;
      eexists; reflexivity.
  - intros [[]|] e H; cbn in *; try discriminate; reflexivity.
  - intros [[]|] e H; cbn in *; try discriminate; reflexivity.
  - intros [[]|] [[]|] H He; cbn in *; try discriminate; eauto.
  - intros [[]|] [[]|] H He; cbn in *; try discriminate; eauto.
  - intros [[]|] H Hm; cbn in *; try discriminate; try congruence; eauto.
  - intros [[]|] H Hm; cbn in *; try discriminate; try congruence; eauto.
Qed.

Lemma dispatch_by_method_witness :
  get_weights_quantization_params_fn
    (Other "QuantizationMethod.SYMMETRIC_UNIFORM") (Member NOCLIPPING)
  = Raise (no_params_function
             (Other "QuantizationMethod.SYMMETRIC_UNIFORM")
             (Member NOCLIPPING)) /\
  get_activation_quantization_params_fn (Member KMEANS) (Member MSE)
  = Raise (no_params_function (Member KMEANS) (Member MSE)) /\
  ~ raises (get_weights_quantization_params_fn
              (Member POWER_OF_TWO) (Other "None")) /\
  (exists f, get_weights_quantization_params_fn
               (Member LUT_QUANTIZER) (Member KL) = Return (Callable f)) /\
  (exists f, forall e, get_activation_quantization_params_fn
                         (Member UNIFORM) e = Return (Callable f)).
Proof.
  destruct dispatch_by_method
    as (Hwr & _ & Hw & Ha & Hwm & _ & _ & Hae).
  split; [apply Hw; reflexivity|].
  split; [apply Ha; reflexivity|].
  split; [rewrite Hwr; discriminate|].
  split; [apply Hwm; reflexivity|].
  apply Hae; [reflexivity | discriminate].
Defined.

(** C1 as stated fails.  With POWER_OF_TWO and an error method that is
    none of the five, both dispatchers return [None]; with SYMMETRIC the
    search function is returned although the error method is unknown. *)
Lemma dispatch_does_not_fail_fast :
  get_weights_quantization_params_fn
    (Member POWER_OF_TWO) (Other "ThresholdSelectionMethod.MSE")
  = Return PyNone /\
  get_activation_quantization_params_fn
    (Member POWER_OF_TWO) (Other "ThresholdSelectionMethod.MSE")
  = Return PyNone /\
  get_weights_quantization_params_fn
    (Member SYMMETRIC) (Other "ThresholdSelectionMethod.MSE")
  = Return (Callable Fn.symmetric_selection_tensor) /\
  ~ fails_fast weights_method_handled get_weights_quantization_params_fn /\
  ~ fails_fast activation_method_handled
      get_activation_quantization_params_fn.
Proof.
  repeat split.
  - intros H.
    destruct (H (Member POWER_OF_TWO) (Other "ThresholdSelectionMethod.MSE"))
      as [_ Hnone].
    now apply Hnone.
  - intros H.
    destruct (H (Member POWER_OF_TWO) (Other "ThresholdSelectionMethod.MSE"))
      as [_ Hnone].
    now apply Hnone.
Qed.

End DispatchClaims.

(** * Properties of the per-node configuration pass *)

Section CandidateFacts.

Import ParamsFnSelection SetNodeQuantizationConfig.

#[local] Instance descending_total : Total descending.
Proof. intros a b. unfold descending. lia. Qed.

#[local] Instance descending_trans : Transitive descending.
Proof. intros a b c. unfold descending. lia. Qed.

Lemma sort_descending_sorted (l : list Z) :
  StronglySorted descending (merge_sort descending l).
Proof. apply StronglySorted_merge_sort; apply _. Qed.

Lemma sort_descending_perm (l : list Z) : merge_sort descending l ≡ₚ l.
Proof. apply merge_sort_Permutation. Qed.

(** Without repeated values a descending list is strictly descending. *)
Lemma descending_NoDup_strict (l : list Z) :
  StronglySorted descending l -> NoDup l ->
  StronglySorted strictly_descending l.
Proof.
  induction 1 as [|a l Hs IH Hall]; intros Hnd; constructor.
  - apply IH. now apply NoDup_cons_1_2 in Hnd.
  - apply NoDup_cons in Hnd as [Hnotin _].
    rewrite Forall_forall in Hall |- *. intros b Hb.
    specialize (Hall b Hb). unfold descending in Hall.
    unfold strictly_descending.
    assert (a <> b) by (intros ->; contradiction).
    lia.
Qed.

Lemma for_each_lift {A C : Type} (xs : list A) (g : A -> result C)
    (f : A -> C) (s : store) :
  (forall x, x ∈ xs -> g x = Return (f x)) ->
  for_each xs (fun x => lift (g x)) s = (Return (map f xs), s).
Proof.
  induction xs as [|x xs IH]; intros H; [reflexivity|].
  cbn [for_each]. unfold mbind at 1. unfold lift at 1.
  rewrite (H x) by apply list_elem_of_here.
  unfold mbind at 1. rewrite IH; [reflexivity|].
  intros y Hy. apply H. now apply list_elem_of_further.
Qed.

Lemma create_node_weights_qc_ok (qc : QuantizationConfig)
    (fw_info : FrameworkInfo) (axis : option Z) (f : quantizer)
    (pf : pyvalue) :
  weights_quantizer_mapping fw_info (weights_quantization_method qc) = Some f ->
  get_weights_quantization_params_fn (weights_quantization_method qc)
    (weights_threshold_method qc) = Return pf ->
  create_node_weights_qc qc fw_info axis =
  Return {| weights_qc := qc;
            weights_quantization_fn := f;
            weights_quantization_params_fn := pf;
            weights_channels_axis := axis;
            cfg_enable_weights_quantization :=
              enable_weights_quantization qc |}.
Proof.
  intros Hf Hpf. unfold create_node_weights_qc. rewrite Hf. cbn [bind].
  rewrite Hpf. reflexivity.
Qed.

Lemma for_each_lift_inv {A C : Type} (xs : list A) (g : A -> result C)
    (s : store) (cs : list C) (s' : store) :
  for_each xs (fun x => lift (g x)) s = (Return cs, s') ->
  s' = s /\ Forall2 (fun x c => g x = Return c) xs cs.
Proof.
  revert cs. induction xs as [|x xs IH]; intros cs; cbn [for_each].
  - unfold ret. intros [= <- <-]. split; [reflexivity | constructor].
  - unfold mbind at 1. unfold lift at 1.
    destruct (g x) as [c|e] eqn:Ex; [|discriminate].
    unfold mbind at 1.
    destruct (for_each xs (fun x => lift (g x)) s) as [[cs0|e] s0] eqn:E;
      [|discriminate].
    unfold ret. intros [= <- <-].
    destruct (IH cs0 eq_refl) as [-> Hall].
    split; [reflexivity | now constructor].
Qed.

Lemma create_node_weights_qc_source (qc : QuantizationConfig)
    (fw_info : FrameworkInfo) (axis : option Z)
    (c : NodeWeightsQuantizationConfig) :
  create_node_weights_qc qc fw_info axis = Return c -> weights_qc c = qc.
Proof.
  unfold create_node_weights_qc.
  destruct (weights_quantizer_mapping fw_info (weights_quantization_method qc));
    cbn [bind Logger_critical]; [|discriminate].
  destruct (get_weights_quantization_params_fn _ _); cbn [bind];
    [|discriminate].
  now intros [= <-].
Qed.

Lemma candidates_bits_of_sources (qc : QuantizationConfig)
    (fw_info : FrameworkInfo) (axis : option Z) (bits : list Z)
    (cs : list NodeWeightsQuantizationConfig) :
  Forall2 (fun nbits c =>
             create_node_weights_qc (set_weights_n_bits qc (NBits nbits))
               fw_info axis = Return c) bits cs ->
  map cfg_weights_n_bits cs = map NBits bits.
Proof.
  induction 1 as [|nbits c bits cs Hc _ IH]; [reflexivity|].
  cbn [map]. rewrite IH. f_equal.
  unfold cfg_weights_n_bits.
  now rewrite (create_node_weights_qc_source _ _ _ _ Hc).
Qed.

End CandidateFacts.

Section CandidateClaims.

Import ParamsFnSelection SetNodeQuantizationConfig.

(** C8 (as amended).  For a mixed-precision configuration the candidate
    list, whenever it is built, holds exactly one candidate per declared
    bit-width, ordered by descending bit-width: strictly when no bit-width
    is declared twice, with equal neighbours otherwise.  For a configuration
    that is not mixed-precision it holds exactly one candidate, made from
    the configuration.  The list is built whenever the framework has a
    quantizer for the weights method and the dispatcher handles it. *)
Theorem candidates_follow_declared_bit_widths (fw_info : FrameworkInfo)
    (axis : option Z) (s : store) :
  let run := _create_node_candidates_weights_qc fw_info axis s in
  let method := weights_quantization_method (quant_config s) in
  let known :=
    is_Some (weights_quantizer_mapping fw_info method) /\
    weights_method_handled method = true in
  (known ->
   (is_mixed_precision (quant_config s) = true ->
    exists declared, weights_n_bits (quant_config s) = NBitsList declared) ->
   returned run.1) /\
  (forall declared candidates,
      is_mixed_precision (quant_config s) = true ->
      weights_n_bits (quant_config s) = NBitsList declared ->
      run.1 = Return candidates ->
      exists bits,
        map cfg_weights_n_bits candidates = map NBits bits /\
        bits ≡ₚ declared /\
        StronglySorted descending bits /\
        (NoDup declared -> StronglySorted strictly_descending bits)) /\
  (forall candidates,
      is_mixed_precision (quant_config s) = false ->
      run.1 = Return candidates ->
      exists c, candidates = [c] /\ weights_qc c = quant_config s).
Proof.
  intros run method known. subst run method known.
  split; [|split].
  - intros [[f Hf] Hm] Hlist.
    destruct (weights_dispatch_returns _
                (weights_threshold_method (quant_config s)) Hm) as [pf Hpf].
    unfold _create_node_candidates_weights_qc, mbind, get_config.
    destruct (is_mixed_precision (quant_config s)) eqn:Hmixed.
    + destruct (Hlist eq_refl) as [declared Hbits].
      rewrite Hbits. unfold put_config. cbn [heap quant_config].
      set (sorted := merge_sort descending declared).
      set (qc' := set_weights_n_bits (quant_config s) (NBitsList sorted)).
      set (mk := fun nbits : Z =>
             {| weights_qc := set_weights_n_bits qc' (NBits nbits);
                weights_quantization_fn := f;
                weights_quantization_params_fn := pf;
                weights_channels_axis := axis;
                cfg_enable_weights_quantization :=
                  enable_weights_quantization (quant_config s) |}).
      rewrite (for_each_lift sorted _ mk); [exact I|].
      intros nbits _.
      rewrite (create_node_weights_qc_ok _ _ _ f pf);
        [reflexivity | exact Hf | exact Hpf].
    + unfold lift, ret.
      rewrite (create_node_weights_qc_ok _ _ _ f pf Hf Hpf). exact I.
  - intros declared candidates Hmixed Hbits.
    unfold _create_node_candidates_weights_qc, mbind, get_config.
    rewrite Hmixed, Hbits. unfold put_config. cbn [heap quant_config].
    set (sorted := merge_sort descending declared).
    match goal with
    | |- (for_each ?xs ?body ?st).1 = _ -> _ =>
        destruct (for_each xs body st) as [r s'] eqn:E
    end.
    cbn [fst]. intros ->.
    apply for_each_lift_inv in E as [_ Hall].
    exists sorted. split; [|split; [|split]].
    + eapply candidates_bits_of_sources. exact Hall.
    + apply sort_descending_perm.
    + apply sort_descending_sorted.
    + intros Hnd. apply descending_NoDup_strict.
      * apply sort_descending_sorted.
      * unfold sorted. rewrite sort_descending_perm. exact Hnd.
  - intros candidates Hsingle.
    unfold _create_node_candidates_weights_qc, mbind, get_config, lift, ret.
    rewrite Hsingle.
    destruct (create_node_weights_qc (quant_config s) fw_info axis)
      as [c|e] eqn:Ec; cbn [fst]; [|discriminate].
    intros [= <-]. exists c. split; [reflexivity|].
    eapply create_node_weights_qc_source, Ec.
Qed.

End CandidateClaims.

Section FrameFacts.

Import ParamsFnSelection SetNodeQuantizationConfig.
Local Open Scope store_scope.

Lemma evolves_refl (L : loc -> Prop) (h : gmap loc BaseNode) : evolves L h h.
Proof.
  intros l. split; [reflexivity|].
  exists (fun n => n). split; [intros n; split; reflexivity|].
  now destruct (h !! l).
Qed.

Lemma evolves_trans (L : loc -> Prop) (h1 h2 h3 : gmap loc BaseNode) :
  evolves L h1 h2 -> evolves L h2 h3 -> evolves L h1 h3.
Proof.
  intros H12 H23 l.
  destruct (H12 l) as [Hf1 (g1 & Hg1 & E1)].
  destruct (H23 l) as [Hf2 (g2 & Hg2 & E2)].
  split.
  - intros Hl. now rewrite Hf2, Hf1.
  - exists (g2 ∘ g1). split.
    + intros n. cbn. destruct (Hg1 n), (Hg2 (g1 n)). split; congruence.
    + rewrite E2, E1. now destruct (h1 !! l).
Qed.

Lemma evolves_weaken (L L' : loc -> Prop) (h h' : gmap loc BaseNode) :
  (forall l, L l -> L' l) -> evolves L h h' -> evolves L' h h'.
Proof.
  intros HL H l. destruct (H l) as [Hf Hg]. split; [|exact Hg].
  intros Hl. apply Hf. intros HLl. apply Hl, HL, HLl.
Qed.

Lemma evolves_alter (l : loc) (f : BaseNode -> BaseNode)
    (h : gmap loc BaseNode) :
  keeps_identity f -> evolves (eq l) h (alter f l h).
Proof.
  intros Hf l'. split.
  - intros Hne. now apply lookup_alter_ne.
  - destruct (decide (l = l')) as [<-|Hne].
    + exists f. split; [exact Hf | apply lookup_alter_eq].
    + exists (fun n => n). split; [intros n; split; reflexivity|].
      rewrite lookup_alter_ne by exact Hne. now destruct (h !! l').
Qed.

Lemma writes_within_ret {A : Type} (L : loc -> Prop) (a : A) :
  writes_within L (ret a).
Proof. intros s. apply evolves_refl. Qed.

Lemma writes_within_lift {A : Type} (L : loc -> Prop) (r : result A) :
  writes_within L (lift r).
Proof. intros s. apply evolves_refl. Qed.

Lemma writes_within_get_config (L : loc -> Prop) : writes_within L get_config.
Proof. intros s. apply evolves_refl. Qed.

Lemma writes_within_put_config (L : loc -> Prop) (qc : QuantizationConfig) :
  writes_within L (put_config qc).
Proof. intros s. apply evolves_refl. Qed.

Lemma writes_within_read_node (L : loc -> Prop) (l : loc) :
  writes_within L (read_node l).
Proof. intros s. apply evolves_refl. Qed.

Lemma writes_within_write_node (l : loc) (f : BaseNode -> BaseNode) :
  keeps_identity f -> writes_within (eq l) (write_node l f).
Proof. intros Hf s. now apply evolves_alter. Qed.

Lemma writes_within_mbind {A C : Type} (L : loc -> Prop) (m : M A)
    (k : A -> M C) :
  writes_within L m -> (forall a, writes_within L (k a)) ->
  writes_within L (mbind m k).
Proof.
  intros Hm Hk s. unfold mbind. specialize (Hm s).
  destruct (m s) as [[a|e] s1]; cbn [snd] in *; [|exact Hm].
  eapply evolves_trans; [exact Hm | apply Hk].
Qed.

Lemma writes_within_weaken {A : Type} (L L' : loc -> Prop) (m : M A) :
  (forall l, L l -> L' l) -> writes_within L m -> writes_within L' m.
Proof. intros HL Hm s. eapply evolves_weaken; [exact HL | apply Hm]. Qed.

Lemma writes_within_for_each {A C : Type} (L : loc -> Prop) (xs : list A)
    (body : A -> M C) :
  (forall x, x ∈ xs -> writes_within L (body x)) ->
  writes_within L (for_each xs body).
Proof.
  induction xs as [|x xs IH]; intros H; cbn [for_each].
  - apply writes_within_ret.
  - apply writes_within_mbind; [apply H, list_elem_of_here|].
    intros b. apply writes_within_mbind.
    + apply IH. intros y Hy. apply H. now apply list_elem_of_further.
    + intros bs. apply writes_within_ret.
Qed.

Create HintDb frame.
#[local] Hint Resolve writes_within_ret writes_within_lift writes_within_get_config
  writes_within_put_config writes_within_read_node : frame.

Lemma writes_within_candidates (L : loc -> Prop) (fw_info : FrameworkInfo)
    (axis : option Z) :
  writes_within L (_create_node_candidates_weights_qc fw_info axis).
Proof.
  unfold _create_node_candidates_weights_qc.
  apply writes_within_mbind; [auto with frame|]. intros qc.
  destruct (is_mixed_precision qc).
  - destruct (weights_n_bits qc); [auto with frame|].
    apply writes_within_mbind; [auto with frame|]. intros _.
    apply writes_within_for_each. intros; auto with frame.
  - apply writes_within_mbind; intros; auto with frame.
Qed.

(** The pass on one node only updates that node. *)
Lemma writes_within_set_node (node : loc) (fw_info : FrameworkInfo) :
  writes_within (eq node) (set_quantization_configs_to_node node fw_info).
Proof.
  unfold set_quantization_configs_to_node.
  repeat first
    [ apply writes_within_candidates
    | apply writes_within_write_node; intros n; split; reflexivity
    | solve [auto with frame]
    | apply writes_within_mbind; [|intros ?] ].
Qed.

Lemma writes_within_set_nodes (ls : list loc) (fw_info : FrameworkInfo) :
  writes_within (fun l => l ∈ ls)
    (for_each ls (fun n => set_quantization_configs_to_node n fw_info)).
Proof.
  apply writes_within_for_each. intros x Hx.
  eapply writes_within_weaken; [|apply writes_within_set_node].
  now intros l <-.
Qed.

End FrameFacts.

Section ConfigurationFacts.

Import ParamsFnSelection SetNodeQuantizationConfig.
Local Open Scope store_scope.

Lemma evolves_is_Some (L : loc -> Prop) (h h' : gmap loc BaseNode) (l : loc) :
  evolves L h h' -> is_Some (h !! l) -> is_Some (h' !! l).
Proof.
  intros H [n Hn]. destruct (H l) as [_ (g & _ & E)].
  rewrite E, Hn. now exists (g n).
Qed.

(** When the pass on a node returns, the node holds both configurations. *)
Lemma set_node_configures (node : loc) (fw_info : FrameworkInfo) (s : store) :
  is_Some (heap s !! node) ->
  (set_quantization_configs_to_node node fw_info s).1 = Return tt ->
  configured_at (heap (set_quantization_configs_to_node node fw_info s).2)
                node.
Proof.
  intros [n0 Hn0].
  unfold set_quantization_configs_to_node, mbind, get_config, lift,
    write_node, read_node.
  destruct (create_node_activation_qc (quant_config s) fw_info)
    as [cfg|e]; cbn [fst snd heap quant_config]; [|discriminate].
  match goal with
  | |- context [kernel_channel_axis ?f ?t] =>
      destruct (kernel_channel_axis f t) as [axis|e];
      cbn [fst snd heap quant_config]; [|discriminate]
  end.
  match goal with
  | |- context [_create_node_candidates_weights_qc ?f ?a ?st] =>
      pose proof (writes_within_candidates (fun _ => False) f a st node)
        as [Hsame _];
      destruct (_create_node_candidates_weights_qc f a st)
        as [[candidates|e] s2]; cbn [fst snd heap quant_config] in *;
      [|discriminate]
  end.
  intros _. unfold configured_at.
  rewrite !lookup_alter_eq, Hsame by tauto.
  rewrite !lookup_alter_eq, Hn0. cbn.
  eexists. split; [reflexivity|]. split; cbn; eauto.
Qed.

Lemma set_nodes_configure (fw_info : FrameworkInfo) (ls : list loc) :
  forall s,
    (forall l, l ∈ ls -> is_Some (heap s !! l)) ->
    returned (for_each ls
                (fun n => set_quantization_configs_to_node n fw_info) s).1 ->
    forall l, l ∈ ls ->
      configured_at
        (heap (for_each ls
                 (fun n => set_quantization_configs_to_node n fw_info) s).2)
        l.
Proof.
  induction ls as [|x xs IH]; intros s Hdom Hret l Hl.
  - now apply elem_of_nil in Hl.
  - cbn [for_each] in *. unfold mbind in *.
    pose proof (writes_within_set_node x fw_info s) as Hx.
    pose proof (set_node_configures x fw_info s
                  (Hdom x (list_elem_of_here _ _))) as Hcx.
    destruct (set_quantization_configs_to_node x fw_info s)
      as [[[]|e] s1]; cbn [fst snd] in *; [|now destruct Hret].
    specialize (Hcx eq_refl).
    pose proof (writes_within_set_nodes xs fw_info s1) as Hxs.
    assert (Hdom1 : forall l', l' ∈ xs -> is_Some (heap s1 !! l')).
    { intros l' Hl'. eapply evolves_is_Some; [exact Hx|].
      apply Hdom. now apply list_elem_of_further. }
    specialize (IH s1 Hdom1).
    destruct (for_each xs
                (fun n => set_quantization_configs_to_node n fw_info) s1)
      as [[bs|e] s2]; cbn [fst snd ret] in *; [|now destruct Hret].
    destruct (decide (l ∈ xs)) as [Hin|Hnotin].
    + apply IH; [exact I | exact Hin].
    + apply elem_of_cons in Hl as [->|Hl]; [|contradiction].
      destruct Hcx as (n & Hn & Hc). exists n. split; [|exact Hc].
      destruct (Hxs x) as [Hsame _]. now rewrite Hsame.
Qed.

(** The deep copy only adds nodes to the store. *)
Lemma deepcopy_nodes_mono (ls : list loc) :
  forall memo h r h', deepcopy_nodes ls memo h = (r, h') -> h ⊆ h'.
Proof.
  induction ls as [|l ls IH]; intros memo h r h' Hrun;
    cbn [deepcopy_nodes] in Hrun.
  - now injection Hrun as <- <-.
  - destruct (memo !! l) as [l'|].
    + destruct (deepcopy_nodes ls memo h) as [r0 h1] eqn:E.
      injection Hrun as <- <-. eapply IH, E.
    + destruct (deepcopy_nodes ls (<[l := fresh (dom h)]> memo)
                  (<[fresh (dom h) := h !!! l]> h)) as [r0 h1] eqn:E.
      injection Hrun as <- <-.
      etrans; [|eapply IH, E].
      apply insert_subseteq, not_elem_of_dom, is_fresh.
Qed.

(** It allocates its nodes outside the store it starts from. *)
Lemma deepcopy_nodes_fresh (h0 : gmap loc BaseNode) (ls : list loc) :
  forall memo h r h',
    h0 ⊆ h ->
    (forall l l', memo !! l = Some l' ->
                  h0 !! l' = None /\ is_Some (h !! l')) ->
    deepcopy_nodes ls memo h = (r, h') ->
    length r = length ls /\
    Forall (fun l' => h0 !! l' = None /\ is_Some (h' !! l')) r.
Proof.
  induction ls as [|l ls IH]; intros memo h r h' Hsub Hmemo Hrun.
  - cbn [deepcopy_nodes] in Hrun. injection Hrun as <- <-.
    split; [reflexivity | constructor].
  - pose proof (deepcopy_nodes_mono _ _ _ _ _ Hrun) as Hmono.
    cbn [deepcopy_nodes] in Hrun.
    destruct (memo !! l) as [l'|] eqn:El.
    + destruct (deepcopy_nodes ls memo h) as [r0 h1] eqn:E.
      injection Hrun as <- <-.
      destruct (IH _ _ _ _ Hsub Hmemo E) as (Hlen & Hall).
      destruct (Hmemo _ _ El) as [Hfresh Hsome].
      split; [cbn; now rewrite Hlen|].
      constructor; [|exact Hall]. split; [exact Hfresh|].
      eapply lookup_weaken_is_Some; eauto.
    + set (l' := fresh (dom h)) in *.
      assert (Hl' : h !! l' = None) by (apply not_elem_of_dom, is_fresh).
      assert (Hsub1 : h ⊆ <[l' := h !!! l]> h) by now apply insert_subseteq.
      destruct (deepcopy_nodes ls (<[l := l']> memo) (<[l' := h !!! l]> h))
        as [r0 h1] eqn:E.
      injection Hrun as <- <-.
      pose proof (deepcopy_nodes_mono _ _ _ _ _ E) as Hmono1.
      assert (Hfresh0 : h0 !! l' = None).
      { destruct (h0 !! l') as [n|] eqn:En; [|reflexivity].
        eapply lookup_weaken in En; [|exact Hsub]. congruence. }
      destruct (IH (<[l := l']> memo) (<[l' := h !!! l]> h) r0 h1)
        as (Hlen & Hall); [etrans; eauto | | exact E |].
      { intros k k' Hk. apply lookup_insert_Some in Hk as [[<- <-]|[_ Hk]].
        - split; [exact Hfresh0|]. rewrite lookup_insert_eq. eauto.
        - destruct (Hmemo _ _ Hk) as [H1 H2]. split; [exact H1|].
          eapply lookup_weaken_is_Some; eauto. }
      split; [cbn; now rewrite Hlen|].
      constructor; [|exact Hall]. split; [exact Hfresh0|].
      eapply lookup_weaken_is_Some; [|exact Hmono1].
      rewrite lookup_insert_eq. eauto.
Qed.

(** On a store that holds the nodes of the graph, the copies hold what
    the originals hold. *)
Lemma deepcopy_nodes_copies (h0 : gmap loc BaseNode) (ls : list loc) :
  forall memo h r h',
    h0 ⊆ h ->
    (forall l, l ∈ ls -> is_Some (h0 !! l)) ->
    (forall l l', memo !! l = Some l' ->
                  exists n, h0 !! l = Some n /\ h !! l' = Some n) ->
    deepcopy_nodes ls memo h = (r, h') ->
    Forall2 (fun l l' => exists n, h0 !! l = Some n /\ h' !! l' = Some n)
            ls r.
Proof.
  induction ls as [|l ls IH]; intros memo h r h' Hsub Hwf Hmemo Hrun;
    cbn [deepcopy_nodes] in Hrun.
  - injection Hrun as <- <-. constructor.
  - assert (Hwf' : forall k, k ∈ ls -> is_Some (h0 !! k))
      by (intros k Hk; apply Hwf; now apply list_elem_of_further).
    destruct (memo !! l) as [l'|] eqn:El.
    + destruct (deepcopy_nodes ls memo h) as [r0 h1] eqn:E.
      injection Hrun as <- <-.
      constructor; [|eapply IH; eauto].
      destruct (Hmemo _ _ El) as (n & Hn & Hn'). exists n.
      split; [exact Hn|].
      eapply lookup_weaken; [exact Hn'|]. eapply deepcopy_nodes_mono, E.
    + set (l' := fresh (dom h)) in *.
      assert (Hl' : h !! l' = None) by (apply not_elem_of_dom, is_fresh).
      assert (Hsub1 : h ⊆ <[l' := h !!! l]> h) by now apply insert_subseteq.
      destruct (deepcopy_nodes ls (<[l := l']> memo) (<[l' := h !!! l]> h))
        as [r0 h1] eqn:E.
      injection Hrun as <- <-.
      destruct (Hwf l (list_elem_of_here _ _)) as [n Hn].
      assert (Hcopy : h !!! l = n).
      { apply lookup_total_correct. eapply lookup_weaken; eauto. }
      constructor.
      * exists n. split; [exact Hn|].
        eapply lookup_weaken; [|eapply deepcopy_nodes_mono, E].
        now rewrite lookup_insert_eq, Hcopy.
      * eapply (IH (<[l := l']> memo) (<[l' := h !!! l]> h));
          [etrans; eauto | exact Hwf' | | exact E].
        intros k k' Hk. apply lookup_insert_Some in Hk as [[<- <-]|[_ Hk]].
        -- exists n. split; [exact Hn|].
           now rewrite lookup_insert_eq, Hcopy.
        -- destruct (Hmemo _ _ Hk) as (m & Hm & Hm'). exists m.
           split; [exact Hm|]. eapply lookup_weaken; eauto.
Qed.

Lemma deepcopy_fresh (h : gmap loc BaseNode) (ls r : list loc)
    (h' : gmap loc BaseNode) :
  deepcopy_nodes ls ∅ h = (r, h') ->
  length r = length ls /\
  Forall (fun l' => h !! l' = None /\ is_Some (h' !! l')) r.
Proof.
  intros Hrun.
  eapply (deepcopy_nodes_fresh h ls ∅ h); [reflexivity | | exact Hrun].
  intros l l' Hl. rewrite lookup_empty in Hl. discriminate Hl.
Qed.

Lemma deepcopy_copies (h : gmap loc BaseNode) (ls r : list loc)
    (h' : gmap loc BaseNode) :
  (forall l, l ∈ ls -> is_Some (h !! l)) ->
  deepcopy_nodes ls ∅ h = (r, h') ->
  Forall2 (fun l l' => exists n, h !! l = Some n /\ h' !! l' = Some n) ls r.
Proof.
  intros Hwf Hrun.
  eapply (deepcopy_nodes_copies h ls ∅ h);
    [reflexivity | exact Hwf | | exact Hrun].
  intros l l' Hl. rewrite lookup_empty in Hl. discriminate Hl.
Qed.

End ConfigurationFacts.

Section GraphClaims.

Import ParamsFnSelection SetNodeQuantizationConfig.
Local Open Scope store_scope.

(** C9.  The pass configures a deep copy and returns it.  Whether it
    returns or raises, every object of the store it started from, hence
    every node of the caller's graph with its configuration fields, is as
    before.  When it returns, the nodes of the returned graph are new
    objects, as many as the nodes of the input graph, and each holds both
    configurations; on a store that holds the nodes of the input graph
    they carry the names and types of the originals, in order. *)
Theorem input_graph_left_unchanged (graph : Graph) (fw_info : FrameworkInfo)
    (s : store) :
  let run := set_quantization_configuration_to_graph graph fw_info s in
  (forall l n, heap s !! l = Some n -> heap run.2 !! l = Some n) /\
  (forall graph_with_qcs, run.1 = Return graph_with_qcs ->
     length (nodes graph_with_qcs) = length (nodes graph) /\
     Forall (fun l' => heap s !! l' = None /\ configured_at (heap run.2) l')
            (nodes graph_with_qcs)) /\
  ((forall l, l ∈ nodes graph -> is_Some (heap s !! l)) ->
   forall graph_with_qcs, run.1 = Return graph_with_qcs ->
     Forall2 (fun l l' =>
                exists n n', heap s !! l = Some n /\
                             heap run.2 !! l' = Some n' /\
                             node_name n' = node_name n /\
                             node_type n' = node_type n)
             (nodes graph) (nodes graph_with_qcs)).
Proof.
  intros run. subst run.
  unfold set_quantization_configuration_to_graph, mbind, deepcopy.
  destruct (deepcopy_nodes (nodes graph) ∅ (heap s)) as [r h1] eqn:Ed.
  cbn [nodes].
  pose proof (deepcopy_nodes_mono _ _ _ _ _ Ed) as Hmono.
  destruct (deepcopy_fresh _ _ _ _ Ed) as [Hlen Hfresh].
  set (s1 := {| heap := h1; quant_config := quant_config s |}) in *.
  pose proof (writes_within_set_nodes r fw_info s1) as Hw.
  pose proof (set_nodes_configure fw_info r s1) as Hc.
  assert (Hdom1 : forall l, l ∈ r -> is_Some (heap s1 !! l)).
  { intros l Hl. rewrite Forall_forall in Hfresh. now apply Hfresh. }
  specialize (Hc Hdom1).
  destruct (for_each r
              (fun n => set_quantization_configs_to_node n fw_info) s1)
    as [[us|e] s2]; cbn [fst snd ret heap] in *.
  - split; [|split].
    + intros l n Hn. destruct (Hw l) as [Hsame _]. rewrite Hsame.
      * eapply lookup_weaken; eauto.
      * intros Hl. rewrite Forall_forall in Hfresh.
        apply Hfresh in Hl as [Hnone _]. congruence.
    + intros g' [= <-]. cbn [nodes]. split; [exact Hlen|].
      rewrite Forall_forall in Hfresh |- *. intros l' Hl'.
      split; [now apply Hfresh | now apply Hc].
    + intros Hwf g' [= <-]. cbn [nodes].
      pose proof (deepcopy_copies _ _ _ _ Hwf Ed) as Hcopies.
      eapply Forall2_impl; [exact Hcopies|].
      intros l l' (n & Hn & Hn'). cbn beta in *.
      destruct (Hw l') as [_ (g & Hg & Eg)].
      exists n, (g n). rewrite Eg. destruct (Hg n) as [Hname Htype].
      change (heap s1) with h1. rewrite Hn'. auto.
  - split; [|split].
    + intros l n Hn. destruct (Hw l) as [Hsame _]. rewrite Hsame.
      * eapply lookup_weaken; eauto.
      * intros Hl. rewrite Forall_forall in Hfresh.
        apply Hfresh in Hl as [Hnone _]. congruence.
    + intros g' H. discriminate H.
    + intros _ g' H. discriminate H.
Qed.

End GraphClaims.

Section GraphExamples.

Import ParamsFnSelection SetNodeQuantizationConfig.

Lemma candidates_follow_declared_bit_widths_witness :
  returned
    (_create_node_candidates_weights_qc sample_fw_info (Some 3%Z)
       (sample_store true (NBitsList [2; 8; 4]%Z))).1 /\
  (forall candidates,
      (_create_node_candidates_weights_qc sample_fw_info (Some 3%Z)
         (sample_store true (NBitsList [2; 8; 4]%Z))).1 = Return candidates ->
      exists bits,
        map cfg_weights_n_bits candidates = map NBits bits /\
        bits ≡ₚ [2; 8; 4]%Z /\
        StronglySorted descending bits /\
        (NoDup [2; 8; 4]%Z -> StronglySorted strictly_descending bits)).
Proof.
  pose proof (candidates_follow_declared_bit_widths sample_fw_info (Some 3%Z)
                (sample_store true (NBitsList [2; 8; 4]%Z))) as H.
  cbv zeta in H. destruct H as (Hret & Hmixed & _).
  split.
  - apply Hret.
    + split; [eexists|]; reflexivity.
    + intros _. eexists. reflexivity.
  - intros candidates Hc.
    apply (Hmixed [2; 8; 4]%Z candidates); [reflexivity | reflexivity | exact Hc].
Defined.

Example candidates_of_the_mixed_precision_test :
  candidate_bit_widths
    (_create_node_candidates_weights_qc sample_fw_info (Some 3%Z)
       (sample_store true (NBitsList [2; 8; 4]%Z))).1
  = Return [NBits 8; NBits 4; NBits 2].
Proof. vm_compute. reflexivity. Qed.

Example one_candidate_without_mixed_precision :
  candidate_bit_widths
    (_create_node_candidates_weights_qc sample_fw_info (Some 3%Z)
       (sample_store false (NBits 8))).1
  = Return [NBits 8].
Proof. vm_compute. reflexivity. Qed.

(** C8 as stated fails: a bit-width declared twice gives two candidates
    with that bit-width, so the order is not strict. *)
Lemma repeated_bit_width_not_strict :
  candidate_bit_widths
    (_create_node_candidates_weights_qc sample_fw_info (Some 3%Z)
       (sample_store true (NBitsList [8; 4; 8]%Z))).1
  = Return [NBits 8; NBits 8; NBits 4] /\
  ~ StronglySorted strictly_descending [8; 8; 4]%Z.
Proof.
  split; [vm_compute; reflexivity|].
  intros H. apply StronglySorted_inv in H as [_ H].
  apply Forall_inv in H. unfold strictly_descending in H. lia.
Qed.

(** The sort is done in place on the shared configuration object. *)
Example declared_list_sorted_in_place :
  weights_n_bits
    (quant_config
       (_create_node_candidates_weights_qc sample_fw_info (Some 3%Z)
          (sample_store true (NBitsList [2; 8; 4]%Z))).2)
  = NBitsList [8; 4; 2]%Z.
Proof. vm_compute. reflexivity. Qed.

Lemma input_graph_left_unchanged_witness :
  heap (set_quantization_configuration_to_graph sample_graph sample_fw_info
          (sample_store true (NBitsList [2; 8; 4]%Z))).2 !! 1%positive
  = Some (sample_node "conv" "Conv2D").
Proof.
  destruct (input_graph_left_unchanged sample_graph sample_fw_info
              (sample_store true (NBitsList [2; 8; 4]%Z))) as [Hframe _].
  apply Hframe. reflexivity.
Defined.

Example pass_returns_a_fresh_graph :
  (set_quantization_configuration_to_graph sample_graph sample_fw_info
     (sample_store true (NBitsList [2; 8; 4]%Z))).1
  = Return {| nodes := [3%positive; 4%positive] |}.
Proof. vm_compute. reflexivity. Qed.

End GraphExamples.

(** * Further properties of the similarity metrics *)

Section MetricLaws.

Import SimilarityAnalyzer.
Local Open Scope R_scope.

Lemma Rsum_nonneg (f : R -> R) (l : list R) :
  (forall v, 0 <= f v) -> 0 <= Rsum (map f l).
Proof.
  intros Hf. induction l as [|v l IH]; cbn; [lra|].
  specialize (Hf v). fold (Rsum (map f l)). lra.
Qed.

Lemma Rsum_zero_iff (f : R -> R) (l : list R) :
  (forall v, 0 <= f v) ->
  Rsum (map f l) = 0 <-> Forall (fun v => f v = 0) l.
Proof.
  intros Hf. induction l as [|v l IH]; cbn.
  - split; [constructor | reflexivity].
  - fold (Rsum (map f l)).
    pose proof (Rsum_nonneg f l Hf). pose proof (Hf v).
    split.
    + intros Hsum. constructor; [lra|]. apply IH. lra.
    + intros Hall. inversion Hall as [|? ? Hv Hl]; subst. apply IH in Hl. lra.
Qed.

Lemma np_power_abs_1 (v : R) : np_power (Rabs v) 1 = Finite (Rabs v).
Proof.
  unfold np_power.
  destruct (decide (Rabs v = 0)) as [Hz|Hnz].
  - destruct (decide (1 = 0)) as [H|_]; [lra|].
    destruct (Rlt_dec 0 1) as [_|H]; [|lra]. now rewrite Hz.
  - pose proof (Rabs_pos v).
    destruct (Rlt_dec 0 (Rabs v)) as [Hlt|]; [|lra].
    f_equal. now apply Rpower_1.
Qed.

Lemma np_power_one (s : R) : 0 <= s -> np_power s (1 / 1) = Finite s.
Proof.
  intros Hs. unfold np_power.
  destruct (decide (s = 0)) as [->|Hnz].
  - destruct (decide (1 / 1 = 0)) as [H|_]; [lra|].
    destruct (Rlt_dec 0 (1 / 1)) as [_|H]; [reflexivity | lra].
  - destruct (Rlt_dec 0 s) as [Hlt|]; [|lra].
    f_equal. replace (1 / 1) with 1 by lra. now apply Rpower_1.
Qed.

Lemma nf_sum_abs (l : list R) :
  nf_sum (map (fun v => np_power (Rabs v) 1) l) = Finite (Rsum (map Rabs l)).
Proof.
  induction l as [|v l IH]; [reflexivity|].
  cbn [map]. unfold nf_sum in *. cbn [foldr].
  rewrite IH, np_power_abs_1. reflexivity.
Qed.

Lemma tensor_norm_1 (x : ndarray R) :
  tensor_norm x 1 = Return (Finite (Rsum (map Rabs (data x)))).
Proof.
  unfold tensor_norm.
  destruct (decide (1 = 0)) as [H|_]; [lra|].
  rewrite nf_sum_abs. cbn [nf_bind].
  rewrite np_power_one; [reflexivity|]. apply Rsum_nonneg, Rabs_pos.
Qed.

Lemma Rsum_sq_zero_iff (l : list R) :
  Rsum (map sq l) = 0 <-> Forall (fun v => v = 0) l.
Proof.
  rewrite (Rsum_zero_iff sq); [|intros v; apply pow2_ge_0].
  apply Forall_proper; [|reflexivity].
  intros v. unfold sq. split; [intros H; nra | intros ->; ring].
Qed.

Lemma nf_mean_all_nonfinite (l : list np_float) :
  Forall (fun d => d = NonFinite) l -> nf_mean l = NonFinite.
Proof.
  intros H. destruct l as [|d l]; [reflexivity|].
  inversion H as [|? ? Hd _]; subst. reflexivity.
Qed.

Lemma zero_norm_differences (f : R -> np_float) (nx ny : np_float)
    (a b : list R) :
  nx = Finite 0 \/ ny = Finite 0 ->
  Forall (fun d => d = NonFinite)
    (map (fun d => nf_bind d f)
       (zip_with (nf_lift2 Rminus)
          (map (fun v => nf_bind nx (fun d => np_div v d)) a)
          (map (fun v => nf_bind ny (fun d => np_div v d)) b))).
Proof.
  intros H. revert b. induction a as [|u a IH]; intros [|w b];
    cbn [map zip_with]; try constructor; [|apply IH].
  assert (Hz : forall v, np_div v 0 = NonFinite).
  { intros v. unfold np_div. destruct (decide (0 = 0)); [reflexivity | lra]. }
  destruct H as [-> | ->]; cbn [nf_bind]; rewrite Hz.
  - reflexivity.
  - unfold nf_lift2. now destruct (nf_bind nx _).
Qed.

(** X6.  [compute_nmse] and [compute_nmae] divide by the norm of each
    tensor with no epsilon: when one of the two tensors holds only zeros
    (or no element) the result is returned but is not a finite number. *)
Theorem normalized_metrics_zero_tensor (x y : ndarray R) :
  shape x = shape y ->
  Forall (fun v => v = 0) (data x) \/ Forall (fun v => v = 0) (data y) ->
  compute_nmse x y = Return NonFinite /\ compute_nmae x y = Return NonFinite.
Proof.
  intros Hs Hz.
  unfold compute_nmse, compute_nmae.
  rewrite validate_same_shape by exact Hs. cbn [bind].
  rewrite !tensor_norm_2, !tensor_norm_1. cbn [bind]. unfold normalize.
  split; f_equal; apply nf_mean_all_nonfinite, zero_norm_differences.
  - destruct Hz as [Hz|Hz]; [left | right]; f_equal;
      apply Rsum_sq_zero_iff in Hz; rewrite Hz; apply sqrt_0.
  - destruct Hz as [Hz|Hz]; [left | right]; f_equal;
      now apply (Rsum_zero_iff Rabs _ Rabs_pos), (Forall_impl _ _ _ Hz);
      intros v ->; apply Rabs_R0.
Qed.

Lemma normalized_metrics_zero_tensor_witness :
  compute_nmse (np_asarray [0; 0]) (np_asarray [1; 2]) = Return NonFinite /\
  compute_nmae (np_asarray [0; 0]) (np_asarray [1; 2]) = Return NonFinite.
Proof.
  apply (normalized_metrics_zero_tensor (np_asarray [0; 0])
           (np_asarray [1; 2])); [reflexivity | left; repeat constructor].
Defined.

End MetricLaws.

(** * Further properties of the similarity metrics on float64 arrays *)

Section Float64Laws.

Import Floats Float64.
Local Open Scope float_scope.

Lemma binary_round_aux_opp (s : bool) (m e : Z) (l : location) :
  binary_round_aux prec emax (negb s) m e l
  = SFopp (binary_round_aux prec emax s m e l).
Proof.
  unfold binary_round_aux.
  destruct (shr_fexp prec emax m e l) as [mrs' e'].
  destruct (shr_fexp prec emax _ e' loc_Exact) as [mrs'' e''].
  destruct (shr_m mrs''); try reflexivity.
  destruct (e'' <=? emax - prec)%Z; reflexivity.
Qed.

Lemma binary_normalize_opp (m e : Z) :
  m <> 0%Z ->
  binary_normalize prec emax (- m) e false
  = SFopp (binary_normalize prec emax m e false).
Proof.
  intros Hm. unfold binary_normalize, binary_round.
  destruct m as [|p|p]; [contradiction| |]; cbv beta iota delta [Z.opp];
    destruct (shl_align p e _) as [mz ez].
  - apply (binary_round_aux_opp false).
  - rewrite (binary_round_aux_opp false).
    now destruct (binary_round_aux _ _ _ _ _ _) as [[]|[]| |[] ? ?].
Qed.

Lemma SFsub_swap_finite (sx sy : bool) (mx my : positive) (ex ey : Z) :
  let x := S754_finite sx mx ex in
  let y := S754_finite sy my ey in
  SF64sub y x = SFopp (SF64sub x y) \/
  (SF64sub x y = S754_zero false /\ SF64sub y x = S754_zero false).
Proof.
  unfold SF64sub. cbn [SFsub].
  rewrite (Z.min_comm ey ex).
  set (ez := Z.min ex ey).
  set (a := cond_Zopp sx (Z.pos (fst (shl_align mx ex ez)))).
  set (b := cond_Zopp sy (Z.pos (fst (shl_align my ey ez)))).
  destruct (Z.eq_dec (a - b)%Z 0%Z) as [E|E].
  - right. replace (b - a)%Z with 0%Z by lia. rewrite E. auto.
  - left. replace (b - a)%Z with (- (a - b))%Z by lia.
    now apply binary_normalize_opp.
Qed.

Lemma SFsub_swap (x y : spec_float) :
  SF64sub y x = SFopp (SF64sub x y) \/
  (SF64sub x y = S754_zero false /\ SF64sub y x = S754_zero false).
Proof.
  destruct x as [sx|sx| |sx mx ex], y as [sy|sy| |sy my ey];
    try apply SFsub_swap_finite;
    try destruct sx; try destruct sy; cbn; auto.
Qed.

Lemma float_sub_swap (a b : float) :
  b - a = - (a - b) \/ (a - b = 0 /\ b - a = 0).
Proof.
  destruct (SFsub_swap (Prim2SF a) (Prim2SF b)) as [H|[H1 H2]].
  - left. apply Prim2SF_inj.
    now rewrite FloatAxioms.opp_spec, !FloatAxioms.sub_spec.
  - right. split; apply Prim2SF_inj; rewrite FloatAxioms.sub_spec;
      assumption.
Qed.

Lemma float_abs_opp (v : float) : abs (- v) = abs v.
Proof.
  apply Prim2SF_inj.
  rewrite !FloatAxioms.abs_spec, FloatAxioms.opp_spec.
  now destruct (Prim2SF v).
Qed.

Lemma float_mul_comm (a b : float) : a * b = b * a.
Proof.
  apply Prim2SF_inj. rewrite !FloatAxioms.mul_spec. unfold SF64mul.
  destruct (Prim2SF a) as [sa|sa| |sa ma ea],
           (Prim2SF b) as [sb|sb| |sb mb eb];
    cbn [SFmul]; rewrite ?(Bool.xorb_comm sb sa); try reflexivity.
  now rewrite (Pos.mul_comm mb ma), (Z.add_comm eb ea).
Qed.

Lemma squares_of_differences (K : Kernel) (l1 l2 : list float)
    (f : float -> float) :
  (forall d, f (- d) = f d) ->
  map f (zip_with sub l1 l2) = map f (zip_with sub l2 l1).
Proof.
  intros Hf. revert l2.
  induction l1 as [|a l1 IH]; intros [|b l2]; cbn [zip_with map];
    try reflexivity.
  rewrite (IH l2). f_equal.
  destruct (float_sub_swap a b) as [-> | [-> ->]]; [now rewrite Hf | reflexivity].
Qed.

Lemma products_swap (l1 l2 : list float) :
  zip_with mul l1 l2 = zip_with mul l2 l1.
Proof.
  revert l2. induction l1 as [|a l1 IH]; intros [|b l2]; cbn [zip_with];
    try reflexivity.
  now rewrite (IH l2), float_mul_comm.
Qed.

Lemma validate_swap_float64 (x y : ndarray float) :
  validate_before_compute_similarity x y
  = validate_before_compute_similarity y x.
Proof.
  unfold validate_before_compute_similarity.
  destruct (decide (shape x = shape y)), (decide (shape y = shape x));
    congruence.
Qed.

(** X1.  On float64 tensors, without normalization, [compute_mse],
    [compute_mae] and [compute_lp_norm] give the same result when the two
    tensors are swapped, and [compute_cs] is symmetric for every [eps]:
    [y - x] is the opposite of [x - y], and the [pow] behind [np.power]
    does not see the sign of its base for the exponent 2. *)
Theorem metrics_symmetric (K : Kernel) (x y : ndarray float) :
  (forall d, npy_pow K (- d) 2 = npy_pow K d 2) ->
  (forall norm_eps,
      compute_mse K x y false norm_eps = compute_mse K y x false norm_eps) /\
  (forall norm_eps,
      compute_mae K x y false norm_eps = compute_mae K y x false norm_eps) /\
  (forall p norm_eps,
      compute_lp_norm K x y p false norm_eps
      = compute_lp_norm K y x p false norm_eps) /\
  (forall eps, compute_cs K x y eps = compute_cs K y x eps).
Proof.
  intros Heven.
  assert (Habs : map abs (zip_with sub (data x) (data y))
                 = map abs (zip_with sub (data y) (data x)))
    by (apply (squares_of_differences K), float_abs_opp).
  repeat split.
  - intros norm_eps. unfold compute_mse, np_power.
    rewrite (validate_swap_float64 x y).
    now rewrite (squares_of_differences K (data x) (data y) _ Heven).
  - intros norm_eps. unfold compute_mae.
    now rewrite (validate_swap_float64 x y), Habs.
  - intros p norm_eps. unfold compute_lp_norm.
    now rewrite (validate_swap_float64 x y), Habs.
  - intros eps. unfold compute_cs.
    rewrite (validate_swap_float64 x y).
    destruct (validate_before_compute_similarity y x); [|reflexivity].
    cbn [bind]. rewrite (Bool.andb_comm (np_all_zero (data y))).
    destruct (np_all_zero (data x) && np_all_zero (data y)); [reflexivity|].
    unfold tensor_norm.
    destruct (2 =? 0); [reflexivity|]. cbn [bind].
    now rewrite products_swap, float_mul_comm.
Qed.

(** X2.  On float64 tensors [compute_lp_norm] with [p = 2] is
    [compute_mse] and with [p = 1] is [compute_mae], for both values of
    [norm] and every [norm_eps], when the [pow] behind [np.power] does not
    see the sign of its base for the exponent 2 and is the identity for the
    exponent 1. *)
Theorem lp_norm_generalizes_mse_and_mae (K : Kernel) (x y : ndarray float)
    (norm : bool) (norm_eps : float) :
  (forall v, npy_pow K (abs v) 2 = npy_pow K v 2) ->
  (forall v, npy_pow K v 1 = v) ->
  compute_lp_norm K x y 2 norm norm_eps = compute_mse K x y norm norm_eps /\
  compute_lp_norm K x y 1 norm norm_eps = compute_mae K x y norm norm_eps.
Proof.
  intros H2 H1.
  assert (E2 : forall l, np_power K (map abs l) (float_of_Z 2)
                         = np_power K l 2).
  { intros l. unfold np_power. rewrite map_map.
    apply map_ext. intros v. apply H2. }
  assert (E1 : forall l, np_power K (map abs l) (float_of_Z 1) = map abs l).
  { intros l. unfold np_power. rewrite <- (map_id (map abs l)) at 2.
    apply map_ext. intros v. apply H1. }
  unfold compute_lp_norm, compute_mse, compute_mae.
  rewrite !E2, !E1. split; reflexivity.
Qed.


Lemma left_to_right_pow_even (d : float) :
  npy_pow left_to_right (- d) 2 = npy_pow left_to_right d 2.
Proof.
  cbn [npy_pow left_to_right]. change (2 =? 2) with true. cbv iota.
  apply Prim2SF_inj.
  rewrite !FloatAxioms.mul_spec, FloatAxioms.opp_spec. unfold SF64mul.
  destruct (Prim2SF d) as [[]|[]| |[] m e]; reflexivity.
Qed.

Lemma left_to_right_pow_abs (v : float) :
  npy_pow left_to_right (abs v) 2 = npy_pow left_to_right v 2.
Proof.
  cbn [npy_pow left_to_right]. change (2 =? 2) with true. cbv iota.
  apply Prim2SF_inj.
  rewrite !FloatAxioms.mul_spec, FloatAxioms.abs_spec. unfold SF64mul.
  destruct (Prim2SF v) as [[]|[]| |[] m e]; reflexivity.
Qed.

Lemma metrics_symmetric_witness :
  compute_mse left_to_right (np_asarray [1; 2]) (np_asarray [3; -1]) false
    default_eps
  = compute_mse left_to_right (np_asarray [3; -1]) (np_asarray [1; 2]) false
      default_eps.
Proof.
  destruct (metrics_symmetric left_to_right (np_asarray [1; 2])
              (np_asarray [3; -1]) left_to_right_pow_even) as [H _].
  apply H.
Defined.

Lemma lp_norm_generalizes_mse_and_mae_witness :
  compute_lp_norm left_to_right (np_asarray [1; 2]) (np_asarray [3; -1]) 2
    false default_eps
  = compute_mse left_to_right (np_asarray [1; 2]) (np_asarray [3; -1])
      false default_eps /\
  compute_lp_norm left_to_right (np_asarray [1; 2]) (np_asarray [3; -1]) 1
    false default_eps
  = compute_mae left_to_right (np_asarray [1; 2]) (np_asarray [3; -1])
      false default_eps.
Proof.
  apply (lp_norm_generalizes_mse_and_mae left_to_right);
    [exact left_to_right_pow_abs | reflexivity].
Defined.

End Float64Laws.

(** * Further properties of the symmetric threshold selection *)

Section SelectionEdgeCases.

Import QuantizationConfigTags SymmetricSelection.
Local Open Scope Q_scope.










End SelectionEdgeCases.

(** * Further properties of the per-node configuration pass *)

Section NodeConfigurationLaws.

Import QuantizationConfigTags ParamsFnSelection SetNodeQuantizationConfig.
Local Open Scope store_scope.

#[local] Existing Instance descending_total.
#[local] Existing Instance descending_trans.

#[local] Instance descending_antisymm : AntiSymm (=) descending.
Proof. intros a b. unfold descending. lia. Qed.

Lemma sort_descending_of_permutation (l1 l2 : list Z) :
  l1 ≡ₚ l2 -> merge_sort descending l1 = merge_sort descending l2.
Proof.
  intros H. apply (StronglySorted_unique descending).
  - apply sort_descending_sorted.
  - apply sort_descending_sorted.
  - now rewrite !sort_descending_perm.
Qed.

Lemma sort_descending_idempotent (l : list Z) :
  merge_sort descending (merge_sort descending l) = merge_sort descending l.
Proof. apply sort_descending_of_permutation, sort_descending_perm. Qed.

(** X13.  The two per-node constructors fail in a fixed order: a method
    the framework has no quantizer for is reported first, with its own
    message; a method the framework knows but the dispatcher does not
    handle fails with the exception of the dispatcher.  They return
    exactly when both lookups succeed. *)
Theorem node_configuration_errors (qc : QuantizationConfig)
    (fw_info : FrameworkInfo) (axis : option Z) :
  (weights_quantizer_mapping fw_info (weights_quantization_method qc) = None ->
   create_node_weights_qc qc fw_info axis
   = Raise (Exception "Unknown quantization method for weights")) /\
  (activation_quantizer_mapping fw_info (activation_quantization_method qc)
   = None ->
   create_node_activation_qc qc fw_info
   = Raise (Exception "Unknown quantization method for activations")) /\
  (is_Some (weights_quantizer_mapping fw_info (weights_quantization_method qc)) ->
   weights_method_handled (weights_quantization_method qc) = false ->
   create_node_weights_qc qc fw_info axis
   = Raise (no_params_function (weights_quantization_method qc)
                               (weights_threshold_method qc))) /\
  (is_Some (activation_quantizer_mapping fw_info
              (activation_quantization_method qc)) ->
   activation_method_handled (activation_quantization_method qc) = false ->
   create_node_activation_qc qc fw_info
   = Raise (no_params_function (activation_quantization_method qc)
                               (activation_threshold_method qc))) /\
  (returned (create_node_weights_qc qc fw_info axis) <->
   is_Some (weights_quantizer_mapping fw_info (weights_quantization_method qc))
   /\ weights_method_handled (weights_quantization_method qc) = true) /\
  (returned (create_node_activation_qc qc fw_info) <->
   is_Some (activation_quantizer_mapping fw_info
              (activation_quantization_method qc))
   /\ activation_method_handled (activation_quantization_method qc) = true).
Proof.
  unfold create_node_weights_qc, create_node_activation_qc.
  destruct (weights_quantizer_mapping fw_info (weights_quantization_method qc))
    as [fw|];
  destruct (activation_quantizer_mapping fw_info
              (activation_quantization_method qc)) as [fa|];
  destruct (weights_quantization_method qc) as [[]|];
  destruct (activation_quantization_method qc) as [[]|];
  cbn; repeat split; intros;
    repeat match goal with
           | H : _ /\ _ |- _ => destruct H
           | H : is_Some None |- _ => destruct H; discriminate
           end;
    try discriminate; try tauto; try reflexivity; eauto.
Qed.

Lemma for_each_lift_step {A C : Type} (x : A) (xs : list A)
    (g : A -> result C) (t : store) :
  for_each (x :: xs) (fun x => lift (g x)) t =
  match g x with
  | Return c =>
      match for_each xs (fun x => lift (g x)) t with
      | (Return cs, t') => (Return (c :: cs), t')
      | (Raise e, t') => (Raise e, t')
      end
  | Raise e => (Raise e, t)
  end.
Proof.
  cbn [for_each]. unfold mbind, lift at 1. destruct (g x); reflexivity.
Qed.

Lemma for_each_lift_pure {A C : Type} (xs : list A) (g : A -> result C) :
  exists r, forall t : store, for_each xs (fun x => lift (g x)) t = (r, t).
Proof.
  induction xs as [|x xs [r Hr]].
  - eexists. intros t. reflexivity.
  - destruct (g x) as [c|e] eqn:E.
    + destruct r as [cs|e].
      * exists (Return (c :: cs)). intros t.
        now rewrite for_each_lift_step, E, Hr.
      * exists (Raise e). intros t. now rewrite for_each_lift_step, E, Hr.
    + exists (Raise e). intros t. now rewrite for_each_lift_step, E.
Qed.

Lemma candidates_depend_on_config (fw_info : FrameworkInfo) (axis : option Z)
    (s s' : store) :
  quant_config s = quant_config s' ->
  (_create_node_candidates_weights_qc fw_info axis s).1
  = (_create_node_candidates_weights_qc fw_info axis s').1 /\
  quant_config (_create_node_candidates_weights_qc fw_info axis s).2
  = quant_config (_create_node_candidates_weights_qc fw_info axis s').2 /\
  heap (_create_node_candidates_weights_qc fw_info axis s).2 = heap s.
Proof.
  intros Hq.
  unfold _create_node_candidates_weights_qc, mbind, get_config.
  rewrite <- Hq.
  destruct (is_mixed_precision (quant_config s)).
  - destruct (weights_n_bits (quant_config s)) as [n|declared];
      [cbn; auto|].
    unfold put_config. cbn [heap quant_config].
    match goal with
    | |- context [for_each ?xs ?body _] =>
        destruct (for_each_lift_pure xs
                    (fun nbits =>
                       create_node_weights_qc
                         (set_weights_n_bits
                            (set_weights_n_bits (quant_config s)
                               (NBitsList (merge_sort descending declared)))
                            (NBits nbits)) fw_info axis)) as [r Hr]
    end.
    cbv zeta. rewrite !Hr. cbn. auto.
  - unfold lift, ret.
    destruct (create_node_weights_qc (quant_config s) fw_info axis); cbn; auto.
Qed.

(** The node the pass leaves at [node] when it returns. *)
Lemma set_node_post (node : loc) (fw_info : FrameworkInfo) (s : store)
    (n0 : BaseNode) :
  heap s !! node = Some n0 ->
  (set_quantization_configs_to_node node fw_info s).1 = Return tt ->
  exists cfg axis candidates,
    create_node_activation_qc (quant_config s) fw_info = Return cfg /\
    kernel_channel_axis fw_info (node_type n0) = Return axis /\
    (_create_node_candidates_weights_qc fw_info axis s).1 = Return candidates /\
    quant_config (set_quantization_configs_to_node node fw_info s).2
    = quant_config (_create_node_candidates_weights_qc fw_info axis s).2 /\
    let n1 := with_activation_cfg n0 cfg in
    let n2 :=
      with_activation_cfg n0
        (set_enable_activation cfg
           (enable_activation_quantization (quant_config s)
            && (in_activation_ops fw_info n1 || in_kernel_ops fw_info n1))) in
    let n3 := with_candidates n2 candidates in
    heap (set_quantization_configs_to_node node fw_info s).2 !! node
    = Some (with_candidates n2
              (map (fun c => set_enable_weights c
                               (enable_weights_quantization (quant_config s)
                                && in_kernel_ops fw_info n3))
                   candidates)).
Proof.
  intros Hn0.
  unfold set_quantization_configs_to_node, mbind, get_config, lift,
    write_node, read_node.
  destruct (create_node_activation_qc (quant_config s) fw_info)
    as [cfg|e]; cbn [fst snd heap quant_config]; [|discriminate].
  rewrite !lookup_total_alt, !lookup_alter_eq, Hn0.
  cbn [fmap option_fmap option_map default node_type
       activation_quantization_cfg candidates_weights_quantization_cfg].
  unfold Datatypes.id.
  cbn [node_name node_type activation_quantization_cfg
       candidates_weights_quantization_cfg].
  destruct (kernel_channel_axis fw_info (node_type n0)) as [axis|e];
    cbn [fst snd heap quant_config]; [|discriminate].
  match goal with
  | |- context [_create_node_candidates_weights_qc ?f ?a ?st] =>
      destruct (candidates_depend_on_config f a st s eq_refl)
        as (Hres & Hcfg & Hheap);
      destruct (_create_node_candidates_weights_qc f a st)
        as [[candidates|e] s2]; cbn [fst snd heap quant_config] in *;
      [|discriminate]
  end.
  intros _. exists cfg, axis, candidates.
  split; [reflexivity|]. split; [reflexivity|]. split; [now rewrite <- Hres|].
  split; [exact Hcfg|].
  cbv zeta.
  rewrite ?lookup_total_alt, !lookup_alter_eq, Hheap, !lookup_alter_eq, Hn0.
  reflexivity.
Qed.

(** X14.  After a pass over one node that returns, the node keeps its
    name and type; its activation quantization is enabled exactly when the
    configuration enables it and the node is an activation or a kernel
    operation, and every candidate has weights quantization enabled
    exactly when the configuration enables it and the node is a kernel
    operation. *)
Theorem node_flags_are_conjunctions (node : loc) (fw_info : FrameworkInfo)
    (s : store) (n0 : BaseNode) :
  heap s !! node = Some n0 ->
  decides_by_type fw_info ->
  (set_quantization_configs_to_node node fw_info s).1 = Return tt ->
  exists n cfg candidates,
    heap (set_quantization_configs_to_node node fw_info s).2 !! node = Some n /\
    node_name n = node_name n0 /\ node_type n = node_type n0 /\
    activation_quantization_cfg n = Some cfg /\
    cfg_enable_activation_quantization cfg
    = enable_activation_quantization (quant_config s)
      && (in_activation_ops fw_info n0 || in_kernel_ops fw_info n0) /\
    candidates_weights_quantization_cfg n = Some candidates /\
    Forall (fun c => cfg_enable_weights_quantization c
                     = enable_weights_quantization (quant_config s)
                       && in_kernel_ops fw_info n0) candidates.
Proof.
  intros Hn0 Hty Hret.
  destruct (set_node_post node fw_info s n0 Hn0 Hret)
    as (cfg & axis & cands & _ & _ & _ & _ & Hnode).
  cbv zeta in Hnode.
  eexists _, _, _. split; [exact Hnode|].
  cbn [with_candidates with_activation_cfg node_name node_type
       activation_quantization_cfg candidates_weights_quantization_cfg].
  split; [reflexivity|]. split; [reflexivity|]. split; [reflexivity|].
  split; [|split; [reflexivity|]].
  - cbn [set_enable_activation cfg_enable_activation_quantization].
    destruct (Hty (with_activation_cfg n0 cfg) n0 eq_refl) as [-> ->].
    reflexivity.
  - apply Forall_forall. intros c Hc.
    apply list_elem_of_fmap in Hc as (c0 & -> & _).
    cbn [set_enable_weights cfg_enable_weights_quantization].
    match goal with
    | |- _ && in_kernel_ops _ ?m = _ =>
        destruct (Hty m n0 eq_refl) as [_ ->]
    end.
    reflexivity.
Qed.

Lemma config_sorted_from_trans (a b c : QuantizationConfig) :
  config_sorted_from a b -> config_sorted_from b c -> config_sorted_from a c.
Proof.
  intros [->|(d & Hm & Hd & ->)] H2; [exact H2|].
  destruct H2 as [->|(d' & Hm' & Hd' & ->)].
  - right. eauto.
  - right. exists d. split; [exact Hm|]. split; [exact Hd|].
    cbn in Hd'. injection Hd' as <-.
    rewrite sort_descending_idempotent. reflexivity.
Qed.

Lemma sorts_config_only_mbind {A C : Type} (m : M A) (k : A -> M C) :
  sorts_config_only m -> (forall a, sorts_config_only (k a)) ->
  sorts_config_only (mbind m k).
Proof.
  intros Hm Hk s. unfold mbind. specialize (Hm s).
  destruct (m s) as [[a|e] s1]; cbn [snd] in *; [|exact Hm].
  eapply config_sorted_from_trans; [exact Hm | apply Hk].
Qed.

Lemma sorts_config_only_same {A : Type} (m : M A) :
  (forall s, quant_config (m s).2 = quant_config s) -> sorts_config_only m.
Proof. intros H s. left. apply H. Qed.

Lemma sorts_config_only_for_each {A C : Type} (xs : list A) (body : A -> M C) :
  (forall x, sorts_config_only (body x)) ->
  sorts_config_only (for_each xs body).
Proof.
  intros H. induction xs as [|x xs IH]; cbn [for_each].
  - now apply sorts_config_only_same.
  - apply sorts_config_only_mbind; [apply H|]. intros b.
    apply sorts_config_only_mbind; [exact IH|]. intros bs.
    now apply sorts_config_only_same.
Qed.

Lemma create_candidates_config (fw_info : FrameworkInfo) (axis : option Z)
    (s : store) :
  quant_config (_create_node_candidates_weights_qc fw_info axis s).2
  = if is_mixed_precision (quant_config s) then
      match weights_n_bits (quant_config s) with
      | NBitsList declared =>
          set_weights_n_bits (quant_config s)
            (NBitsList (merge_sort descending declared))
      | NBits _ => quant_config s
      end
    else quant_config s.
Proof.
  unfold _create_node_candidates_weights_qc, mbind, get_config.
  destruct (is_mixed_precision (quant_config s)).
  - destruct (weights_n_bits (quant_config s)) as [n|declared];
      [reflexivity|].
    unfold put_config. cbn [heap quant_config]. cbv zeta.
    match goal with
    | |- context [for_each ?xs _ _] =>
        destruct (for_each_lift_pure xs
                    (fun nbits =>
                       create_node_weights_qc
                         (set_weights_n_bits
                            (set_weights_n_bits (quant_config s)
                               (NBitsList (merge_sort descending declared)))
                            (NBits nbits)) fw_info axis)) as [r Hr]
    end.
    rewrite Hr. reflexivity.
  - unfold lift, ret.
    destruct (create_node_weights_qc (quant_config s) fw_info axis);
      reflexivity.
Qed.

Lemma sorts_config_only_candidates (fw_info : FrameworkInfo) (axis : option Z) :
  sorts_config_only (_create_node_candidates_weights_qc fw_info axis).
Proof.
  intros s. rewrite create_candidates_config.
  destruct (is_mixed_precision (quant_config s)) eqn:Hm; [|now left].
  destruct (weights_n_bits (quant_config s)) as [n|d] eqn:Hd; [now left|].
  right. eauto.
Qed.

Lemma sorts_config_only_set_node (node : loc) (fw_info : FrameworkInfo) :
  sorts_config_only (set_quantization_configs_to_node node fw_info).
Proof.
  unfold set_quantization_configs_to_node.
  repeat first
    [ apply sorts_config_only_candidates
    | apply sorts_config_only_same; intros ?; reflexivity
    | apply sorts_config_only_mbind; [|intros ?] ].
Qed.

(** X15.  Whether it returns or raises, the pass over a graph leaves every
    field of the shared configuration as it was, except the declared list
    of bit-widths of a mixed-precision configuration, which it may leave
    sorted in descending order. *)
Theorem pass_only_sorts_the_configuration (graph : Graph)
    (fw_info : FrameworkInfo) (s : store) :
  let qc := quant_config s in
  let qc' :=
    quant_config (set_quantization_configuration_to_graph graph fw_info s).2 in
  is_mixed_precision qc' = is_mixed_precision qc /\
  activation_quantization_method qc' = activation_quantization_method qc /\
  activation_threshold_method qc' = activation_threshold_method qc /\
  weights_quantization_method qc' = weights_quantization_method qc /\
  weights_threshold_method qc' = weights_threshold_method qc /\
  enable_activation_quantization qc' = enable_activation_quantization qc /\
  enable_weights_quantization qc' = enable_weights_quantization qc /\
  (weights_n_bits qc' = weights_n_bits qc \/
   exists declared,
     is_mixed_precision qc = true /\
     weights_n_bits qc = NBitsList declared /\
     weights_n_bits qc' = NBitsList (merge_sort descending declared)).
Proof.
  intros qc qc'.
  assert (H : config_sorted_from qc qc').
  { subst qc qc'. revert s.
    change (sorts_config_only
              (set_quantization_configuration_to_graph graph fw_info)).
    unfold set_quantization_configuration_to_graph.
    apply sorts_config_only_mbind.
    - apply sorts_config_only_same. intros s. unfold deepcopy.
      now destruct (deepcopy_nodes _ _ _).
    - intros g. apply sorts_config_only_mbind.
      + apply sorts_config_only_for_each. intros x.
        apply sorts_config_only_set_node.
      + intros _. now apply sorts_config_only_same. }
  destruct H as [->|(d & Hm & Hd & ->)].
  - repeat split; auto.
  - cbn. repeat split; eauto.
Qed.

Lemma create_candidates_mixed_bits (fw_info : FrameworkInfo) (axis : option Z)
    (s : store) (declared : list Z)
    (candidates : list NodeWeightsQuantizationConfig) :
  is_mixed_precision (quant_config s) = true ->
  weights_n_bits (quant_config s) = NBitsList declared ->
  (_create_node_candidates_weights_qc fw_info axis s).1 = Return candidates ->
  map cfg_weights_n_bits candidates
  = map NBits (merge_sort descending declared).
Proof.
  intros Hm Hd.
  unfold _create_node_candidates_weights_qc, mbind, get_config.
  rewrite Hm, Hd. unfold put_config. cbn [heap quant_config].
  match goal with
  | |- (for_each ?xs ?body ?st).1 = _ -> _ =>
      destruct (for_each xs body st) as [r s'] eqn:E
  end.
  cbn [fst]. intros ->.
  apply for_each_lift_inv in E as [_ Hall].
  eapply candidates_bits_of_sources. exact Hall.
Qed.

Lemma set_node_candidates (node : loc) (fw_info : FrameworkInfo) (s : store)
    (l0 : list Z) :
  is_Some (heap s !! node) ->
  is_mixed_precision (quant_config s) = true ->
  weights_n_bits (quant_config s) = NBitsList l0 ->
  (set_quantization_configs_to_node node fw_info s).1 = Return tt ->
  holds_candidates (merge_sort descending l0)
    (heap (set_quantization_configs_to_node node fw_info s).2) node /\
  quant_config (set_quantization_configs_to_node node fw_info s).2
  = set_weights_n_bits (quant_config s) (NBitsList (merge_sort descending l0)).
Proof.
  intros [n0 Hn0] Hm Hd Hret.
  destruct (set_node_post node fw_info s n0 Hn0 Hret)
    as (cfg & axis & cands & _ & _ & Hc & Hq & Hnode).
  cbv zeta in Hnode. split.
  - eexists _, _. split; [exact Hnode|]. split; [reflexivity|].
    rewrite map_map. cbn [cfg_weights_n_bits set_enable_weights weights_qc].
    now apply (create_candidates_mixed_bits fw_info axis s l0).
  - rewrite Hq, create_candidates_config, Hm, Hd. reflexivity.
Qed.

Lemma set_nodes_candidates (fw_info : FrameworkInfo) (declared : list Z)
    (ls : list loc) :
  forall s l0,
    (forall l, l ∈ ls -> is_Some (heap s !! l)) ->
    is_mixed_precision (quant_config s) = true ->
    weights_n_bits (quant_config s) = NBitsList l0 ->
    l0 ≡ₚ declared ->
    returned (for_each ls
                (fun n => set_quantization_configs_to_node n fw_info) s).1 ->
    (forall l, l ∈ ls ->
       holds_candidates (merge_sort descending declared)
         (heap (for_each ls
                  (fun n => set_quantization_configs_to_node n fw_info) s).2)
         l) /\
    (ls <> [] ->
     weights_n_bits
       (quant_config
          (for_each ls
             (fun n => set_quantization_configs_to_node n fw_info) s).2)
     = NBitsList (merge_sort descending declared)).
Proof.
  induction ls as [|x xs IH]; intros s l0 Hdom Hm Hd Hperm Hret.
  - split; [intros l Hl; now apply elem_of_nil in Hl | congruence].
  - cbn [for_each] in *. unfold mbind in *.
    pose proof (writes_within_set_node x fw_info s) as Hx.
    pose proof (set_node_candidates x fw_info s l0
                  (Hdom x (list_elem_of_here _ _)) Hm Hd) as Hcx.
    destruct (set_quantization_configs_to_node x fw_info s)
      as [[[]|e] s1]; cbn [fst snd] in *; [|now destruct Hret].
    destruct (Hcx eq_refl) as [Hcand Hq1].
    rewrite (sort_descending_of_permutation _ _ Hperm) in Hcand, Hq1.
    pose proof (writes_within_set_nodes xs fw_info s1) as Hxs.
    assert (Hdom1 : forall l', l' ∈ xs -> is_Some (heap s1 !! l')).
    { intros l' Hl'. eapply evolves_is_Some; [exact Hx|].
      apply Hdom. now apply list_elem_of_further. }
    assert (Hm1 : is_mixed_precision (quant_config s1) = true)
      by (rewrite Hq1; exact Hm).
    assert (Hd1 : weights_n_bits (quant_config s1)
                  = NBitsList (merge_sort descending declared))
      by (rewrite Hq1; reflexivity).
    specialize (IH s1 _ Hdom1 Hm1 Hd1 (sort_descending_perm declared)).
    destruct (for_each xs
                (fun n => set_quantization_configs_to_node n fw_info) s1)
      as [[bs|e] s2] eqn:E2; cbn [fst snd ret] in *; [|now destruct Hret].
    destruct (IH I) as [IHc IHq].
    split.
    + intros l Hl.
      destruct (decide (l ∈ xs)) as [Hin|Hnotin]; [now apply IHc|].
      apply elem_of_cons in Hl as [->|Hl]; [|contradiction].
      destruct Hcand as (n & cs & Hn & Hcs & Hbits).
      exists n, cs. split; [|auto].
      destruct (Hxs x) as [Hsame _]. now rewrite Hsame.
    + intros _. destruct xs as [|y ys].
      * cbn in E2. injection E2 as _ <-. exact Hd1.
      * apply IHq. discriminate.
Qed.

(** X16.  When the pass over a graph returns under a mixed-precision
    configuration, every node of the returned graph carries candidates
    with the same bit-widths: the declared ones in descending order; and
    unless the graph is empty the shared configuration holds that sorted
    list afterwards. *)
Theorem pass_gives_every_node_the_declared_bit_widths (graph : Graph)
    (fw_info : FrameworkInfo) (s : store) (declared : list Z) :
  is_mixed_precision (quant_config s) = true ->
  weights_n_bits (quant_config s) = NBitsList declared ->
  forall graph_with_qcs,
    (set_quantization_configuration_to_graph graph fw_info s).1
    = Return graph_with_qcs ->
    exists bits,
      bits ≡ₚ declared /\ StronglySorted descending bits /\
      Forall
        (holds_candidates bits
           (heap (set_quantization_configuration_to_graph graph fw_info s).2))
        (nodes graph_with_qcs) /\
      (nodes graph <> [] ->
       weights_n_bits
         (quant_config
            (set_quantization_configuration_to_graph graph fw_info s).2)
       = NBitsList bits).
Proof.
  intros Hm Hd g'.
  unfold set_quantization_configuration_to_graph, mbind, deepcopy.
  destruct (deepcopy_nodes (nodes graph) ∅ (heap s)) as [r h1] eqn:Ed.
  cbn [nodes].
  destruct (deepcopy_fresh _ _ _ _ Ed) as [Hlen Hfresh].
  set (s1 := {| heap := h1; quant_config := quant_config s |}) in *.
  pose proof (set_nodes_candidates fw_info declared r s1 declared) as Hc.
  assert (Hdom1 : forall l, l ∈ r -> is_Some (heap s1 !! l)).
  { intros l Hl. rewrite Forall_forall in Hfresh. now apply Hfresh. }
  specialize (Hc Hdom1 Hm Hd (reflexivity _)).
  destruct (for_each r
              (fun n => set_quantization_configs_to_node n fw_info) s1)
    as [[us|e] s2]; cbn [fst snd ret heap] in *; [|discriminate].
  intros [= <-]. cbn [nodes].
  destruct (Hc I) as [Hall Hq].
  exists (merge_sort descending declared).
  split; [apply sort_descending_perm|].
  split; [apply sort_descending_sorted|].
  split; [now apply Forall_forall|].
  intros Hne. apply Hq. intros ->.
  destruct (nodes graph); [contradiction | discriminate].
Qed.

(** X17.  The configuration is only looked at while a node is processed:
    on a graph with no node the pass returns an empty graph and changes
    nothing, whatever the configuration; on a graph with a node, a failure
    of the activation configuration is the failure of the pass. *)
Theorem configuration_is_validated_per_node (graph : Graph)
    (fw_info : FrameworkInfo) (s : store) :
  (nodes graph = [] ->
   set_quantization_configuration_to_graph graph fw_info s
   = (Return {| nodes := [] |}, s)) /\
  (forall e,
      nodes graph <> [] ->
      create_node_activation_qc (quant_config s) fw_info = Raise e ->
      (set_quantization_configuration_to_graph graph fw_info s).1 = Raise e).
Proof.
  unfold set_quantization_configuration_to_graph, mbind, deepcopy. split.
  - intros ->. cbn. now destruct s.
  - intros e Hne He.
    destruct (nodes graph) as [|l ls]; [contradiction|].
    cbn [deepcopy_nodes]. rewrite lookup_empty.
    destruct (deepcopy_nodes ls _ _) as [r h1].
    cbn [nodes for_each]. unfold mbind.
    unfold set_quantization_configs_to_node at 1.
    unfold mbind, get_config, lift. cbn [quant_config].
    now rewrite He.
Qed.

Lemma sample_fw_info_decides_by_type : decides_by_type sample_fw_info.
Proof.
  intros n n' H. cbn [sample_fw_info in_activation_ops in_kernel_ops].
  rewrite H. split; reflexivity.
Defined.

Lemma node_flags_are_conjunctions_witness :
  exists n cfg candidates,
    heap (set_quantization_configs_to_node 1%positive sample_fw_info
            (sample_store true (NBitsList [2; 8; 4]%Z))).2 !! 1%positive
    = Some n /\
    node_name n = "conv" /\ node_type n = "Conv2D" /\
    activation_quantization_cfg n = Some cfg /\
    cfg_enable_activation_quantization cfg = true /\
    candidates_weights_quantization_cfg n = Some candidates /\
    Forall (fun c => cfg_enable_weights_quantization c = true) candidates.
Proof.
  apply (node_flags_are_conjunctions 1%positive sample_fw_info
           (sample_store true (NBitsList [2; 8; 4]%Z))
           (sample_node "conv" "Conv2D"));
    [reflexivity | exact sample_fw_info_decides_by_type
     | vm_compute; reflexivity].
Defined.

Lemma pass_gives_every_node_the_declared_bit_widths_witness :
  exists bits,
    bits ≡ₚ [2; 8; 4]%Z /\ StronglySorted descending bits /\
    Forall
      (holds_candidates bits
         (heap (set_quantization_configuration_to_graph sample_graph
                  sample_fw_info
                  (sample_store true (NBitsList [2; 8; 4]%Z))).2))
      [3%positive; 4%positive] /\
    (nodes sample_graph <> [] ->
     weights_n_bits
       (quant_config
          (set_quantization_configuration_to_graph sample_graph
             sample_fw_info (sample_store true (NBitsList [2; 8; 4]%Z))).2)
     = NBitsList bits).
Proof.
  apply (pass_gives_every_node_the_declared_bit_widths sample_graph
           sample_fw_info (sample_store true (NBitsList [2; 8; 4]%Z))
           [2; 8; 4]%Z eq_refl eq_refl {| nodes := [3%positive; 4%positive] |}).
  vm_compute. reflexivity.
Defined.

End NodeConfigurationLaws.

(** * Properties of the target platform lookup and of the distance
      functions *)

Section LookupFacts.

Import TargetPlatformLookup.
Context {V : Type}.

Lemma get_model_registered (models : gmap string (gmap string V))
    (fw_name hw_name : string) :
  get_model models fw_name hw_name
  = match registered models fw_name hw_name with
    | Some model => Return (Some model)
    | None => Raise AssertionError
    end.
Proof.
  unfold get_model, registered. cbn [py_in py_get bind].
  destruct (models !! fw_name) as [by_fw|] eqn:Hfw.
  - rewrite bool_decide_eq_true_2 by eauto. cbn.
    destruct (by_fw !! hw_name) as [model|] eqn:Hhw.
    + rewrite bool_decide_eq_true_2 by eauto. reflexivity.
    + rewrite bool_decide_eq_false_2 by (intros [? ?]; congruence).
      reflexivity.
  - rewrite bool_decide_eq_false_2 by (intros [? ?]; congruence).
    reflexivity.
Qed.

(** X18.  [get_model] returns the model registered under the framework
    and the hardware name when both keys are present, and fails with an
    [AssertionError] otherwise: it never returns [None] and never fails in
    another way. *)
Theorem get_model_returns_registered_entry
    (models : gmap string (gmap string V)) (fw_name hw_name : string) :
  (forall model,
      get_model models fw_name hw_name = Return (Some model)
      <-> exists by_fw,
            models !! fw_name = Some by_fw /\ by_fw !! hw_name = Some model) /\
  (get_model models fw_name hw_name = Raise AssertionError
   <-> forall by_fw,
         models !! fw_name = Some by_fw -> by_fw !! hw_name = None) /\
  get_model models fw_name hw_name <> Return None /\
  (forall e,
      get_model models fw_name hw_name = Raise e -> e = AssertionError).
Proof.
  rewrite get_model_registered. unfold registered.
  destruct (models !! fw_name) as [by_fw|] eqn:Hfw; cbn [mbind option_bind].
  - destruct (by_fw !! hw_name) as [model|] eqn:Hhw.
    + repeat split.
      * intros [= <-]. eauto.
      * intros (m & [= <-] & Hm). congruence.
      * discriminate.
      * intros H. specialize (H by_fw eq_refl). congruence.
      * discriminate.
      * discriminate.
    + repeat split.
      * discriminate.
      * intros (m & [= <-] & Hm). congruence.
      * intros _ m [= <-]. exact Hhw.
      * discriminate.
      * congruence.
  - repeat split.
    + discriminate.
    + intros (m & Hm & _). discriminate.
    + intros _ m Hm. discriminate.
    + discriminate.
    + congruence.
Qed.

(** X19.  With the table of [get_model.py]: [get_model] looks tensorflow
    names up in the tensorflow table and pytorch names in the pytorch
    table; a framework whose packages are not found passes the first
    assertion and fails the second for every hardware name, and any other
    framework name fails the first. *)
Theorem get_model_framework_not_installed (TENSORFLOW PYTORCH : string)
    (tf_models_dict torch_models_dict : gmap string V) (hw_name : string) :
  let models :=
    fw_hw_models_dict TENSORFLOW PYTORCH tf_models_dict torch_models_dict in
  TENSORFLOW <> PYTORCH ->
  (get_model models TENSORFLOW hw_name
   = match tf_models_dict !! hw_name with
     | Some model => Return (Some model)
     | None => Raise AssertionError
     end) /\
  (get_model models PYTORCH hw_name
   = match torch_models_dict !! hw_name with
     | Some model => Return (Some model)
     | None => Raise AssertionError
     end) /\
  (tf_models_dict = ∅ ->
   get_model models TENSORFLOW hw_name = Raise AssertionError) /\
  (forall fw_name,
      fw_name <> TENSORFLOW -> fw_name <> PYTORCH ->
      get_model models fw_name hw_name = Raise AssertionError).
Proof.
  intros models Hne.
  assert (Htf : registered models TENSORFLOW hw_name
                = tf_models_dict !! hw_name).
  { unfold registered, models, fw_hw_models_dict.
    rewrite lookup_insert_ne by congruence.
    now rewrite lookup_insert_eq. }
  assert (Hto : registered models PYTORCH hw_name
                = torch_models_dict !! hw_name).
  { unfold registered, models, fw_hw_models_dict.
    now rewrite lookup_insert_eq. }
  assert (Ho : forall fw_name, fw_name <> TENSORFLOW -> fw_name <> PYTORCH ->
               registered models fw_name hw_name = None).
  { intros fw_name H1 H2. unfold registered, models, fw_hw_models_dict.
    rewrite !lookup_insert_ne by congruence. now rewrite lookup_empty. }
  repeat split.
  - rewrite get_model_registered, Htf. reflexivity.
  - rewrite get_model_registered, Hto. reflexivity.
  - intros ->. rewrite get_model_registered, Htf, lookup_empty. reflexivity.
  - intros fw_name H1 H2. rewrite get_model_registered, Ho by assumption.
    reflexivity.
Qed.

(** X20.  [get_target_platform_capabilities] asserts the platform, the
    framework and a version that is given.  When the version is left out
    the latest one is looked up without an assertion, so the result is
    [None] if no version is registered under that name. *)
Theorem default_version_is_not_checked (LATEST : string)
    (tpc_dict : gmap string (gmap string (gmap string V)))
    (fw_name target_platform_name : string)
    (target_platform_version : option string) :
  match registered tpc_dict target_platform_name fw_name with
  | None =>
      get_target_platform_capabilities LATEST tpc_dict fw_name
        target_platform_name target_platform_version
      = Raise AssertionError
  | Some tpc_versions =>
      match target_platform_version with
      | Some version =>
          get_target_platform_capabilities LATEST tpc_dict fw_name
            target_platform_name (Some version)
          = match tpc_versions !! version with
            | Some tpc => Return (Some tpc)
            | None => Raise AssertionError
            end
      | None =>
          get_target_platform_capabilities LATEST tpc_dict fw_name
            target_platform_name None
          = Return (tpc_versions !! LATEST)
      end
  end.
Proof.
  unfold get_target_platform_capabilities, registered.
  cbn [py_in py_get bind].
  destruct (tpc_dict !! target_platform_name) as [fw_tpc|] eqn:Hp.
  - rewrite bool_decide_eq_true_2 by eauto. cbn.
    destruct (fw_tpc !! fw_name) as [tpc_versions|] eqn:Hfw.
    + rewrite bool_decide_eq_true_2 by eauto. cbn.
      destruct target_platform_version as [version|]; [|reflexivity].
      destruct (tpc_versions !! version) as [tpc|] eqn:Hv.
      * rewrite bool_decide_eq_true_2 by eauto. cbn. now rewrite Hv.
      * rewrite bool_decide_eq_false_2 by (intros [? ?]; congruence).
        reflexivity.
    + rewrite bool_decide_eq_false_2 by (intros [? ?]; congruence).
      reflexivity.
  - rewrite bool_decide_eq_false_2 by (intros [? ?]; congruence).
    reflexivity.
Qed.

End LookupFacts.

Section LookupExamples.

Import TargetPlatformLookup.

Lemma get_model_framework_not_installed_witness :
  get_model
    (fw_hw_models_dict "tensorflow" "pytorch" ∅ {[ "default" := 1%nat ]})
    "tensorflow" "default" = Raise AssertionError /\
  get_model
    (fw_hw_models_dict "tensorflow" "pytorch" ∅ {[ "default" := 1%nat ]})
    "pytorch" "default" = Return (Some 1%nat).
Proof.
  pose proof (get_model_framework_not_installed (V := nat) "tensorflow"
                "pytorch" ∅ {[ "default" := 1%nat ]} "default") as H.
  cbv zeta in H. destruct H as (_ & Hto & Htf & _); [discriminate|].
  split; [apply Htf; reflexivity | exact Hto].
Defined.

End LookupExamples.

Section KerasFacts.

Import KerasImplementation.
Context {F : Type}.
Variable keras : keras_constants.

(** X21.  The choice of the distance function and the interest-point test
    agree: they fail on the same nodes (an [Activation] without its
    attribute), every node that gets the KL divergence or the cosine
    similarity is an interest point, and an [Activation] node is an
    interest point exactly when it gets one of these. *)
Theorem dedicated_distance_implies_interest_point (node : Node) :
  match get_node_distance_fn (F := F) keras (type node)
          (framework_attr node) None with
  | Raise e =>
      e = KeyError /\ type node = Activation /\
      framework_attr node !! ACTIVATION keras = None /\
      count_node_for_mixed_precision_interest_points keras node = Raise e
  | Return d =>
      exists counted,
        count_node_for_mixed_precision_interest_points keras node
        = Return counted /\
        (is_dedicated d = true -> counted = true) /\
        (type node = Activation -> counted = is_dedicated d)
  end.
Proof.
  destruct node as [ty attrs]. cbn [type framework_attr].
  unfold get_node_distance_fn, count_node_for_mixed_precision_interest_points.
  cbn [type framework_attr].
  destruct (decide (ty = Activation)) as [->|Hty].
  - unfold getitem.
    destruct (attrs !! ACTIVATION keras) as [name|] eqn:Hname;
      cbn [bind]; [|auto].
    destruct (decide (name = SOFTMAX keras)) as [->|H1].
    + rewrite bool_decide_eq_true_2 by reflexivity. cbn [orb].
      rewrite bool_decide_eq_true_2 by apply list_elem_of_here.
      exists true. auto.
    + rewrite (bool_decide_eq_false_2 (name = SOFTMAX keras)) by exact H1.
      cbn [orb].
      destruct (decide (name = SIGMOID keras)) as [->|H2].
      * rewrite bool_decide_eq_true_2 by reflexivity.
        rewrite bool_decide_eq_true_2
          by apply list_elem_of_further, list_elem_of_here.
        exists true. auto.
      * rewrite bool_decide_eq_false_2 by exact H2.
        rewrite bool_decide_eq_false_2.
        -- exists false. cbn. auto.
        -- intros Hin. apply elem_of_cons in Hin as [?|Hin]; [contradiction|].
           apply elem_of_cons in Hin as [?|Hin]; [contradiction|].
           now apply elem_of_nil in Hin.
  - destruct ty; try contradiction; vm_compute; eexists;
      (split; [reflexivity|]); split; intros; congruence.
Qed.

End KerasFacts.
